(** * A verification development for the Aviasales test harness

    The repository holds two small mechanisms with a contract of their own:

    - the resilient request client of [tests/api_tests.py]
      ([BaseApiClient], [SuggestApiClient], [FlightSearchApiClient]);
    - the wait engine of [BasePage.py] ([BasePage]).

    Both are embedded below as state-passing functions.  The HTTP transport
    ([requests.Session.request]), the browser ([selenium]'s driver) and the
    clock are collaborators outside the repository: they appear as
    parameters of the sections, and a few executable test doubles are given
    for them further down. *)

From Stdlib Require Import ZArith String List Lia DecimalString.
From stdpp Require Import base option list gmap strings.

Set Warnings "-register-all".

(** ** Python values, exceptions and results *)

(** The values [json.loads] produces (floats are left out: none of the
    modelled code computes with them).  A dict is an association list whose
    first binding of a key is the binding of the dict. *)
Inductive PyVal : Type :=
  | PNone
  | PBool (b : bool)
  | PInt (z : Z)
  | PStr (s : string)
  | PList (l : list PyVal)
  | PDict (d : list (string * PyVal)).

(** Instances of [Exception] that the modelled code can meet.  In
    [selenium] the classes [TimeoutException] and [NoSuchElementException]
    derive from [WebDriverException]; the constructor [WebDriverException]
    below stands for every other driver error (invalid selector, stale
    element, lost session, ...). *)
Inductive exn : Type :=
  | AssertionError (msg : string)
  | TypeError (msg : string)
  | AttributeError (msg : string)
  | JSONDecodeError (msg : string)
  | RequestException (msg : string)
  | TimeoutException (msg : string)
  | NoSuchElementException (msg : string)
  | WebDriverException (msg : string).

(** [str(e)] *)
Definition str_exn (e : exn) : string :=
  match e with
  | AssertionError m | TypeError m | AttributeError m | JSONDecodeError m
  | RequestException m | TimeoutException m | NoSuchElementException m
  | WebDriverException m => m
  end.

(** A call either returns a value or raises. *)
Inductive Res (A : Type) : Type :=
  | Ok (a : A)
  | Raise (e : exn).
Arguments Ok {A} a.
Arguments Raise {A} e.

#[global] Instance Res_ret : MRet Res := fun A a => Ok a.
#[global] Instance Res_bind : MBind Res := fun A B f m =>
  match m with
  | Ok a => f a
  | Raise e => Raise e
  end.

(** [str(n)] for an [int]. *)
Definition str_int (z : Z) : string := NilZero.string_of_int (Z.to_int z).

(** [needle in hay] for two [str]: a search in the bytes, which finds what
    a search in the characters finds, UTF-8 being self-synchronising. *)
Definition contains (needle hay : string) : bool :=
  match String.index 0 needle hay with
  | Some _ => true
  | None => false
  end.

(** A [str] is held as its UTF-8 encoding, one [ascii] per byte: a
    Cyrillic letter takes two of them.  A byte of the form 10xxxxxx
    continues the character begun before it; every other byte begins one. *)
Definition is_continuation (c : Ascii.ascii) : bool :=
  let n := Ascii.nat_of_ascii c in
  (128 <=? n)%nat && (n <? 192)%nat.

(** [len(s)]: the number of characters. *)
Fixpoint py_len (s : string) : nat :=
  match s with
  | EmptyString => O
  | String c s' => if is_continuation c then py_len s' else S (py_len s')
  end.

(** [s[:n]]: the first [n] characters, each with all its bytes. *)
Fixpoint py_prefix (n : nat) (s : string) : string :=
  match s with
  | EmptyString => EmptyString
  | String c s' =>
      if is_continuation c then String c (py_prefix n s')
      else
        match n with
        | O => EmptyString
        | S n' => String c (py_prefix n' s')
        end
  end.

(** [s.lower()] on the letters A-Z, which is all that the name of an HTTP
    header can hold of upper case. *)
Definition lower_ascii (c : Ascii.ascii) : Ascii.ascii :=
  let n := Ascii.nat_of_ascii c in
  if (65 <=? n)%nat && (n <=? 90)%nat then Ascii.ascii_of_nat (n + 32) else c.

Fixpoint lower (s : string) : string :=
  match s with
  | EmptyString => EmptyString
  | String c s' => String (lower_ascii c) (lower s')
  end.

(** Truth value testing ([if value:], [a or b]). *)
Class Truthy (V : Type) : Type := truthy : V -> bool.

#[global] Instance PyVal_truthy : Truthy PyVal := fun v =>
  match v with
  | PNone => false
  | PBool b => b
  | PInt z => negb (z =? 0)%Z
  | PStr s => negb (String.eqb s "")
  | PList l => match l with [] => false | _ :: _ => true end
  | PDict d => match d with [] => false | _ :: _ => true end
  end.

(** [v == s] for a [str] literal [s]. *)
Definition py_eq_str (v : PyVal) (s : string) : bool :=
  match v with
  | PStr s' => String.eqb s' s
  | _ => false
  end.

(** Hashable values and the key under which a [set] stores them: two
    hashable values are [==] exactly when their keys are equal
    ([True == 1] and [False == 0]).  Lists and dicts are unhashable. *)
Inductive HKey : Type :=
  | KNone
  | KNum (z : Z)
  | KStr (s : string).

#[global] Instance HKey_eq_dec : EqDecision HKey.
Proof. solve_decision. Defined.

Definition py_key (v : PyVal) : option HKey :=
  match v with
  | PNone => Some KNone
  | PBool b => Some (KNum (if b then 1 else 0)%Z)
  | PInt z => Some (KNum z)
  | PStr s => Some (KStr s)
  | PList _ | PDict _ => None
  end.

(** A [set], as the list of its elements in insertion order.  Python
    leaves the iteration order of a set unspecified; nothing below depends
    on it. *)
Definition PySet : Type := list PyVal.

(** [s.add(v)] *)
Definition set_add (v : PyVal) (s : PySet) : Res PySet :=
  match py_key v with
  | None => Raise (TypeError "unhashable type")
  | Some k =>
      if existsb (fun u => bool_decide (py_key u = Some k)) s
      then Ok s
      else Ok (s ++ [v])
  end.

(** [d.get(key)] on an association list. *)
Fixpoint assoc_get (key : string) (d : list (string * PyVal)) : PyVal :=
  match d with
  | [] => PNone
  | (k, v) :: d' => if String.eqb k key then v else assoc_get key d'
  end.

(** [item.get(key)]: only a dict has the method. *)
Definition py_get (item : PyVal) (key : string) : Res PyVal :=
  match item with
  | PDict d => Ok (assoc_get key d)
  | _ => Raise (AttributeError "object has no attribute 'get'")
  end.

(** The characters of a [str], each as a one-character [str]: a byte
    joins the character that the bytes after it continue. *)
Fixpoint split_chars (s : string) : list string :=
  match s with
  | EmptyString => []
  | String c s' =>
      match s' with
      | EmptyString => [String c EmptyString]
      | String c' _ =>
          if is_continuation c'
          then
            match split_chars s' with
            | [] => [String c EmptyString]
            | h :: t => String c h :: t
            end
          else String c EmptyString :: split_chars s'
      end
  end.

Definition chars (s : string) : list PyVal := map PStr (split_chars s).

(** [for item in v]: the items a value yields when iterated over. *)
Definition py_iter (v : PyVal) : Res (list PyVal) :=
  match v with
  | PList l => Ok l
  | PDict d => Ok (map (fun kv => PStr (fst kv)) d)
  | PStr s => Ok (chars s)
  | PNone | PBool _ | PInt _ => Raise (TypeError "object is not iterable")
  end.

(** [range(n)] *)
Definition py_range (n : Z) : list Z := map Z.of_nat (seq 0 (Z.to_nat n)).

(** ** The resilient request client ([tests/api_tests.py]) *)

Module Config.
Definition SUGGEST_API_URL : string := "https://autocomplete.travelpayouts.com/places2".
Definition FLIGHT_API_URL : string := "https://api.travelpayouts.com/v1/flights/search".
Definition TOKEN : string := "yourapikeyhere".
Definition TIMEOUT : Z := 30.
Definition RETRY_COUNT : Z := 3.
Definition RETRY_DELAY : Z := 1.
End Config.

(** [requests.Response], as far as the client looks at it: the status
    code, the body text and what [response.json()] does (it returns the
    decoded body, or raises when the body is not JSON). *)
Record Response : Type := mkResponse {
  status_code : Z;
  text : string;
  json : Res PyVal
}.

(** The arguments of one [session.request(...)] call, together with the
    headers that the session holds at that moment. *)
Record Call : Type := mkCall {
  c_method : string;
  c_url : string;
  c_params : option PyVal;
  c_json : option PyVal;
  c_headers : option (gmap string string);
  c_timeout : Z;
  c_session_headers : gmap string string
}.

(** What the client does that is visible from outside: the attempts
    against the transport with their outcome, and the attachments sent to
    the report.  [allure.attach] is taken to record and to return: it
    raises nothing that the [except Exception] of the loop could catch. *)
Inductive Attachment : Type :=
  | AttachRequest (name : string) (method full_url : string)
      (params json : option PyVal) (headers : option (gmap string string))
  | AttachResponse (name : string) (status : Z) (body : string).

Inductive Event : Type :=
  | EvRequest (call : Call) (outcome : Res Response)
  | EvAttach (a : Attachment).

(** The attempts recorded in a trace. *)
Fixpoint attempts (evs : list Event) : list (Call * Res Response) :=
  match evs with
  | [] => []
  | EvRequest call o :: evs' => (call, o) :: attempts evs'
  | EvAttach _ :: evs' => attempts evs'
  end.

(** A [requests.Session]: its headers, and the connection and cookie
    state it keeps between calls. *)
Record Session (Conn : Type) : Type := mkSession {
  headers : gmap string string;
  conn : Conn
}.
Arguments mkSession {Conn} headers conn.
Arguments headers {Conn} _.
Arguments conn {Conn} _.

Record BaseApiClient (Conn : Type) : Type := mkClient {
  base_url : string;
  token : option string;
  session : Session Conn
}.
Arguments mkClient {Conn} base_url token session.
Arguments base_url {Conn} _.
Arguments token {Conn} _.
Arguments session {Conn} _.

Section Client.
(** The connection and cookie state a [Session] keeps between calls. *)
Context {Conn : Type}.

(** The transport: what one [session.request] does with the session's
    headers, the call and the connection state.  It returns a response
    for every HTTP status, and raises on a transport fault. *)
Variable send : Call -> Conn -> Res Response * Conn.

(** The headers of a fresh [Session()]. *)
Variable default_headers : gmap string string.

(** [Session()] on a fresh connection state. *)
Definition Session_new (c : Conn) : Session Conn :=
  {| headers := default_headers; conn := c |}.

(** [session.request(...)]: the session's headers are read, never
    written, by a request. *)
Definition session_request (s : Session Conn) (method url : string)
    (params json : option PyVal) (hdrs : option (gmap string string))
    (timeout : Z) : Call * Res Response * Session Conn :=
  let call := mkCall method url params json hdrs timeout (headers s) in
  let '(r, c') := send call (conn s) in
  (call, r, {| headers := headers s; conn := c' |}).

(** [session.headers.update({name: value})].  The headers of a session are
    a [CaseInsensitiveDict]: the entry replaces the one the session holds
    under that name in any case. *)
Definition headers_update (name value : string) (h : gmap string string)
    : gmap string string :=
  <[name := value]>
    (filter (fun kv : string * string => lower kv.1 <> lower name) h).

(** [BaseApiClient.__init__]; [if token:] holds for a non-empty string. *)
Definition BaseApiClient_init (base : string) (tok : option string)
    (c : Conn) : BaseApiClient Conn :=
  let s := Session_new c in
  let s' :=
    match tok with
    | Some t =>
        if negb (String.eqb t "")
        then {| headers := headers_update "Authorization" ("Token " +:+ t)
                             (headers s);
                conn := conn s |}
        else s
    | None => s
    end in
  {| base_url := base; token := tok; session := s' |}.

(** Line 75: [url if url.startswith("http") else f"{self.base_url}{url}"]. *)
Definition full_url (self : BaseApiClient Conn) (url : string) : string :=
  if String.prefix "http" url then url else base_url self +:+ url.

(** The body of [for attempt in range(retry)], over the attempts left. *)
Fixpoint request_loop (self : BaseApiClient Conn) (method furl : string)
    (params jsn : option PyVal) (hdrs : option (gmap string string))
    (timeout retry : Z) (todo : list Z)
    : Res Response * BaseApiClient Conn * list Event :=
  match todo with
  | [] => (Raise (AssertionError "Не удалось выполнить запрос"), self, [])
  | attempt :: todo' =>
      let '(call, r, s') :=
        session_request (session self) method furl params jsn hdrs timeout in
      let self' := {| base_url := base_url self; token := token self;
                      session := s' |} in
      match r with
      | Ok response =>
          (Ok response, self',
           [EvRequest call r;
            EvAttach (AttachRequest "Запрос" method furl params jsn hdrs);
            EvAttach (AttachResponse "Ответ" (status_code response)
                        (py_prefix 1000 (text response)))])
      | Raise e =>
          if (attempt =? retry - 1)%Z
          then (Raise (AssertionError
                         ("Запрос не выполнен после " +:+ str_int retry
                          +:+ " попыток: " +:+ str_exn e)),
                self', [EvRequest call r])
          else
            let '(r', self'', evs) :=
              request_loop self' method furl params jsn hdrs timeout retry todo' in
            (r', self'', EvRequest call r :: evs)
      end
  end.

(** [BaseApiClient._request] *)
Definition _request (self : BaseApiClient Conn) (method url : string)
    (params jsn : option PyVal) (hdrs : option (gmap string string))
    (timeout retry : Z) : Res Response * BaseApiClient Conn * list Event :=
  request_loop self method (full_url self url) params jsn hdrs timeout retry
    (py_range retry).

(** [BaseApiClient.wait_for_ok] *)
Definition wait_for_ok (response : Response) : Res PyVal :=
  if (status_code response =? 200)%Z
  then json response
  else Raise (AssertionError
                ("Ожидался код 200, получен " +:+ str_int (status_code response)
                 +:+ ": " +:+ text response)).

End Client.



Section Endpoints.
Context {Conn : Type}.
Variable send : Call -> Conn -> Res Response * Conn.
Variable default_headers : gmap string string.

(** [self._request(...)] followed by [self.wait_for_ok(response)], the
    shape of every endpoint method. *)
Definition request_ok (self : BaseApiClient Conn) (method url : string)
    (params jsn : option PyVal)
    : Res PyVal * BaseApiClient Conn * list Event :=
  let '(r, self', evs) :=
    _request send self method url params jsn None Config.TIMEOUT Config.RETRY_COUNT in
  (response ← r; wait_for_ok response, self', evs).

(** [SuggestApiClient.__init__] *)
Definition SuggestApiClient_init (c : Conn) : BaseApiClient Conn :=
  BaseApiClient_init default_headers Config.SUGGEST_API_URL None c.

(** The [params] dict of both [search_places] methods. *)
Definition places_params (term locale : string) (types : list string) : PyVal :=
  PDict [("term", PStr term); ("locale", PStr locale);
         ("types[]", PList (map PStr types))].

(** [SuggestApiClient.search_places_post] *)
Definition search_places_post (self : BaseApiClient Conn) (term locale : string)
    (types : list string) : Res PyVal * BaseApiClient Conn * list Event :=
  request_ok self "POST" "" (Some (places_params term locale types)) None.

(** [SuggestApiClient.search_places_get] *)
Definition search_places_get (self : BaseApiClient Conn) (term locale : string)
    (types : list string) : Res PyVal * BaseApiClient Conn * list Event :=
  request_ok self "GET" "" (Some (places_params term locale types)) None.

(** [FlightSearchApiClient.__init__] *)
Definition FlightSearchApiClient_init (c : Conn) : BaseApiClient Conn :=
  BaseApiClient_init default_headers Config.FLIGHT_API_URL (Some Config.TOKEN) c.

(** [{k: v for k, v in payload.items() if v is not None}] *)
Definition drop_none (d : list (string * PyVal)) : list (string * PyVal) :=
  List.filter (fun kv => match snd kv with PNone => false | _ => true end) d.

(** [FlightSearchApiClient.search_flights] *)
Definition search_flights (self : BaseApiClient Conn)
    (origin destination depart_date : string) (return_date : option string)
    (trip_class adults children infants : Z)
    : Res PyVal * BaseApiClient Conn * list Event :=
  let payload :=
    [("origin", PStr origin); ("destination", PStr destination);
     ("depart_date", PStr depart_date);
     ("return_date", match return_date with Some d => PStr d | None => PNone end);
     ("trip_class", PInt trip_class); ("adults", PInt adults);
     ("children", PInt children); ("infants", PInt infants)] in
  request_ok self "POST" "" None (Some (PDict (drop_none payload))).

(** One request of a client's lifetime: the arguments of a [_request]. *)
Record Request : Type := mkRequest {
  rq_method : string;
  rq_url : string;
  rq_params : option PyVal;
  rq_json : option PyVal;
  rq_headers : option (gmap string string);
  rq_timeout : Z;
  rq_retry : Z
}.

(** The requests of a client's lifetime, issued one after the other
    through the same instance; a request that raises does not end the
    life of the instance.  The result is the instance at the end and the
    whole trace. *)
Fixpoint lifetime (self : BaseApiClient Conn) (rqs : list Request)
    : BaseApiClient Conn * list Event :=
  match rqs with
  | [] => (self, [])
  | rq :: rqs' =>
      let '(_, self', evs) :=
        _request send self (rq_method rq) (rq_url rq) (rq_params rq)
          (rq_json rq) (rq_headers rq) (rq_timeout rq) (rq_retry rq) in
      let '(self'', evs') := lifetime self' rqs' in
      (self'', evs ++ evs')
  end.

End Endpoints.

(** [SuggestApiClient.extract_city_names]: the loop over the items, with
    the set [cities] built so far. *)
Fixpoint extract_loop (items : list PyVal) (cities : PySet) : Res PySet :=
  match items with
  | [] => Ok cities
  | item :: items' =>
      ty ← py_get item "type";
      if py_eq_str ty "city" then
        name ← py_get item "name";
        city_name ← (if truthy name then Ok name else py_get item "city_name");
        if truthy city_name then
          cities' ← set_add city_name cities;
          extract_loop items' cities'
        else extract_loop items' cities
      else extract_loop items' cities
  end.

Definition extract_city_names (response_json : PyVal) : Res (list PyVal) :=
  items ← py_iter response_json;
  extract_loop items [].

(** [SuggestApiClient.extract_iata_codes] *)
Fixpoint extract_iata_codes_loop (items : list PyVal) (codes : list PyVal)
    : Res (list PyVal) :=
  match items with
  | [] => Ok codes
  | item :: items' =>
      ty ← py_get item "type";
      if py_eq_str ty "airport" then
        code ← py_get item "code";
        if truthy code
        then extract_iata_codes_loop items' (codes ++ [code])
        else extract_iata_codes_loop items' codes
      else extract_iata_codes_loop items' codes
  end.

Definition extract_iata_codes (response_json : PyVal) : Res (list PyVal) :=
  items ← py_iter response_json;
  extract_iata_codes_loop items [].

(** *** Test doubles for the transport *)

(** A scripted transport: the connection state is the list of outcomes
    still to come, and a call past the end of the script is refused. *)
Definition scripted (call : Call) (script : list (Res Response))
    : Res Response * list (Res Response) :=
  match script with
  | [] => (Raise (RequestException "connection refused"), [])
  | o :: script' => (o, script')
  end.

(** A transport that is down for good. *)
Definition always_down (call : Call) (c : unit) : Res Response * unit :=
  (Raise (RequestException "connection refused"), tt).

Definition response_400 : Response :=
  mkResponse 400 "bad request" (Raise (JSONDecodeError "Expecting value")).

Definition response_404 : Response :=
  mkResponse 404 "not found" (Raise (JSONDecodeError "Expecting value")).

Definition response_a1 : Response :=
  mkResponse 200 "{'a': 1}" (Ok (PDict [("a", PInt 1)])).

Definition response_html : Response :=
  mkResponse 200 "<html>Bad Gateway</html>" (Raise (JSONDecodeError "Expecting value")).


(** ** The wait engine ([BasePage.py]) *)

(** A locator is a pair [(By, value)]; an element is the handle the
    driver gives out. *)
Definition Locator : Type := (string * string)%type.
Definition WebElement : Type := Z.

(** A [WebElement] is an object: always true. *)
#[global] Instance WebElement_truthy : Truthy WebElement := fun _ => true.

(** The value of an expected condition that answers with the element or
    with [False]. *)
#[global] Instance ElementOrFalse_truthy : Truthy (option WebElement) := fun v =>
  match v with
  | Some _ => true
  | None => false
  end.

(** The browser and the clock, as the harness sees them.  Every call may
    change the page, takes time, and may raise.  Time is counted in
    milliseconds. *)
Record Browser (Env : Type) : Type := mkBrowser {
  monotonic : Env -> Z;
  sleep : Z -> Env -> Env;
  drv_find_element : Locator -> Env -> Res WebElement * Env;
  el_is_displayed : WebElement -> Env -> Res bool * Env;
  el_is_enabled : WebElement -> Env -> Res bool * Env;
  el_click : WebElement -> Env -> Res unit * Env;
  el_clear : WebElement -> Env -> Res unit * Env;
  el_send_keys : WebElement -> string -> Env -> Res unit * Env;
  el_text : WebElement -> Env -> Res string * Env
}.
Arguments monotonic {Env} _ _.
Arguments sleep {Env} _ _ _.
Arguments drv_find_element {Env} _ _ _.
Arguments el_is_displayed {Env} _ _ _.
Arguments el_is_enabled {Env} _ _ _.
Arguments el_click {Env} _ _ _.
Arguments el_clear {Env} _ _ _.
Arguments el_send_keys {Env} _ _ _ _.
Arguments el_text {Env} _ _ _.

(** The calls made on the browser, in order, with their outcome. *)
Inductive UiEvent : Type :=
  | UFind (loc : Locator) (r : Res WebElement)
  | UIsDisplayed (el : WebElement) (r : Res bool)
  | UIsEnabled (el : WebElement) (r : Res bool)
  | UClick (el : WebElement) (r : Res unit)
  | UClear (el : WebElement) (r : Res unit)
  | USendKeys (el : WebElement) (keys : string) (r : Res unit)
  | UText (el : WebElement) (r : Res string).

(** The calls that only look at the page. *)
Definition is_probe (ev : UiEvent) : bool :=
  match ev with
  | UFind _ _ | UIsDisplayed _ _ | UIsEnabled _ _ => true
  | UClick _ _ | UClear _ _ | USendKeys _ _ _ | UText _ _ => false
  end.

Record State (Env : Type) : Type := mkState {
  env : Env;
  log : list UiEvent
}.
Arguments mkState {Env} env log.
Arguments env {Env} _.
Arguments log {Env} _.

(** [WebDriverWait(driver, timeout)]: the timeout in seconds, the poll
    frequency ([POLL_FREQUENCY], half a second) in milliseconds. *)
Record WebDriverWait : Type := mkWait {
  wd_timeout : Z;
  wd_poll : Z
}.

Definition POLL_FREQUENCY : Z := 500.

Definition WebDriverWait_new (timeout : Z) : WebDriverWait :=
  {| wd_timeout := timeout; wd_poll := POLL_FREQUENCY |}.

(** [IGNORED_EXCEPTIONS = (NoSuchElementException,)] *)
Definition ignored (e : exn) : bool :=
  match e with
  | NoSuchElementException _ => true
  | _ => false
  end.

Section WaitEngine.
Context {Env : Type}.
Variable B : Browser Env.

(** A computation on the browser: it returns or raises, and leaves a state. *)
Definition UI (A : Type) : Type := State Env -> Res A * State Env.

Definition ui_bind {A C : Type} (m : UI A) (f : A -> UI C) : UI C :=
  fun st =>
    let '(r, st1) := m st in
    match r with
    | Ok a => f a st1
    | Raise e => (Raise e, st1)
    end.

Definition ui_ret {A : Type} (a : A) : UI A := fun st => (Ok a, st).

(** The driver's calls, recorded. *)
Definition driver_find_element (loc : Locator) : UI WebElement := fun st =>
  let '(r, e) := drv_find_element B loc (env st) in
  (r, mkState e (log st ++ [UFind loc r])).

Definition element_is_displayed (el : WebElement) : UI bool := fun st =>
  let '(r, e) := el_is_displayed B el (env st) in
  (r, mkState e (log st ++ [UIsDisplayed el r])).

Definition element_is_enabled (el : WebElement) : UI bool := fun st =>
  let '(r, e) := el_is_enabled B el (env st) in
  (r, mkState e (log st ++ [UIsEnabled el r])).

Definition element_click (el : WebElement) : UI unit := fun st =>
  let '(r, e) := el_click B el (env st) in
  (r, mkState e (log st ++ [UClick el r])).

Definition element_clear (el : WebElement) : UI unit := fun st =>
  let '(r, e) := el_clear B el (env st) in
  (r, mkState e (log st ++ [UClear el r])).

Definition element_send_keys (el : WebElement) (keys : string) : UI unit := fun st =>
  let '(r, e) := el_send_keys B el keys (env st) in
  (r, mkState e (log st ++ [USendKeys el keys r])).

Definition element_text (el : WebElement) : UI string := fun st =>
  let '(r, e) := el_text B el (env st) in
  (r, mkState e (log st ++ [UText el r])).

(** [time.monotonic()] and [time.sleep(poll)] *)
Definition clock (st : State Env) : Z := monotonic B (env st).

Definition do_sleep (ms : Z) (st : State Env) : State Env :=
  mkState (sleep B ms (env st)) (log st).

(** [EC.presence_of_element_located(locator)] of [selenium]: the search
    itself. *)
Definition presence_of_element_located (loc : Locator) : UI WebElement :=
  driver_find_element loc.

(** [EC.element_to_be_clickable(locator)] of [selenium]: the element
    when it is found, displayed and enabled, [False] when it is found but
    not so. *)
Definition element_to_be_clickable (loc : Locator) : UI (option WebElement) :=
  ui_bind (driver_find_element loc) (fun target =>
  ui_bind (element_is_displayed target) (fun displayed =>
  if displayed then
    ui_bind (element_is_enabled target) (fun enabled =>
    ui_ret (if enabled then Some target else None))
  else ui_ret None)).

(** [WebDriverWait.until] of [selenium], which every wait of [BasePage]
    goes through: the loop
    [while True: try: value = method(driver); if value: return value
     except ignored: pass; if time.monotonic() > end_time: break;
     time.sleep(poll)] followed by [raise TimeoutException].
    The fuel bounds the number of polls; [None] is a run out of fuel. *)
Fixpoint until_loop {V : Type} `{Truthy V} (fuel : nat) (end_time poll : Z)
    (method : UI V) (st : State Env) : option (Res V * State Env) :=
  match fuel with
  | O => None
  | S fuel' =>
      let '(r, st1) := method st in
      let again :=
        if (end_time <? clock st1)%Z
        then Some (Raise (TimeoutException ""), st1)
        else until_loop fuel' end_time poll method (do_sleep poll st1) in
      match r with
      | Ok value => if truthy value then Some (Ok value, st1) else again
      | Raise e => if ignored e then again else Some (Raise e, st1)
      end
  end.

Definition until {V : Type} `{Truthy V} (fuel : nat) (w : WebDriverWait)
    (method : UI V) (st : State Env) : option (Res V * State Env) :=
  until_loop fuel (clock st + 1000 * wd_timeout w)%Z (wd_poll w) method st.

(** [BasePage]: the driver is the browser of the state; [self.wait] is
    built from [Config.EXPLICIT_WAIT], a constant of a module that is not
    part of the sources and is taken as an argument. *)
Record BasePage : Type := mkBasePage {
  wait : WebDriverWait
}.

Definition BasePage_init (EXPLICIT_WAIT : Z) : BasePage :=
  {| wait := WebDriverWait_new EXPLICIT_WAIT |}.

(** [BasePage.find_element] *)
Definition find_element (fuel : nat) (self : BasePage) (loc : Locator)
    (st : State Env) : option (Res WebElement * State Env) :=
  until fuel (wait self) (presence_of_element_located loc) st.

(** [BasePage.find_clickable] *)
Definition find_clickable (fuel : nat) (self : BasePage) (loc : Locator)
    (st : State Env) : option (Res (option WebElement) * State Env) :=
  until fuel (wait self) (element_to_be_clickable loc) st.

(** [BasePage.click]: [self.find_clickable(locator).click()] *)
Definition click (fuel : nat) (self : BasePage) (loc : Locator)
    (st : State Env) : option (Res unit * State Env) :=
  match find_clickable fuel self loc st with
  | None => None
  | Some (Raise e, st1) => Some (Raise e, st1)
  | Some (Ok (Some element), st1) => Some (element_click element st1)
  | Some (Ok None, st1) =>
      Some (Raise (AttributeError "'bool' object has no attribute 'click'"), st1)
  end.

(** [BasePage.send_keys] *)
Definition send_keys (fuel : nat) (self : BasePage) (loc : Locator)
    (keys : string) (st : State Env) : option (Res unit * State Env) :=
  match find_element fuel self loc st with
  | None => None
  | Some (Raise e, st1) => Some (Raise e, st1)
  | Some (Ok element, st1) =>
      Some (ui_bind (element_clear element)
              (fun _ => element_send_keys element keys) st1)
  end.

(** [BasePage.get_text] *)
Definition get_text (fuel : nat) (self : BasePage) (loc : Locator)
    (st : State Env) : option (Res string * State Env) :=
  match find_element fuel self loc st with
  | None => None
  | Some (Raise e, st1) => Some (Raise e, st1)
  | Some (Ok element, st1) => Some (element_text element st1)
  end.

(** [BasePage.is_element_present]: [except TimeoutException] and nothing else. *)
Definition is_element_present (fuel : nat) (self : BasePage) (loc : Locator)
    (timeout : Z) (st : State Env) : option (Res bool * State Env) :=
  match until fuel (WebDriverWait_new timeout) (presence_of_element_located loc) st with
  | None => None
  | Some (Ok _, st1) => Some (Ok true, st1)
  | Some (Raise (TimeoutException _), st1) => Some (Ok false, st1)
  | Some (Raise e, st1) => Some (Raise e, st1)
  end.

(** [BasePage.wait_for_result]: [until(lambda _: condition())] *)
Definition wait_for_result {V : Type} `{Truthy V} (fuel : nat) (self : BasePage)
    (condition : UI V) (timeout : Z) (st : State Env)
    : option (Res V * State Env) :=
  until fuel (WebDriverWait_new timeout) (fun st' => condition st') st.

(** The state in which the [k]-th evaluation of [method] starts when the
    polling goes on that long: after each evaluation, one sleep. *)
Fixpoint poll_state {V : Type} (poll : Z) (method : UI V) (k : nat)
    (st : State Env) : State Env :=
  match k with
  | O => st
  | S k' => poll_state poll method k' (do_sleep poll (snd (method st)))
  end.

(** The outcome and the state of the [k]-th evaluation. *)
Definition poll {V : Type} (poll_ms : Z) (method : UI V) (k : nat)
    (st : State Env) : Res V * State Env :=
  method (poll_state poll_ms method k st).

End WaitEngine.

(** An evaluation that asks for another poll: a false value, or an
    ignored exception. *)
Definition not_yet {V : Type} `{Truthy V} (r : Res V) : bool :=
  match r with
  | Ok v => negb (truthy v)
  | Raise e => ignored e
  end.

(** What the harness assumes of time: a sleep lasts at least as long as
    asked, and no call on the browser sets the clock back. *)
Record BrowserLaws {Env : Type} (B : Browser Env) : Prop := mkLaws {
  sleep_advances : forall ms e, (monotonic B e + ms <= monotonic B (sleep B ms e))%Z;
  find_monotone : forall loc e, (monotonic B e <= monotonic B (snd (drv_find_element B loc e)))%Z;
  displayed_monotone : forall el e, (monotonic B e <= monotonic B (snd (el_is_displayed B el e)))%Z;
  enabled_monotone : forall el e, (monotonic B e <= monotonic B (snd (el_is_enabled B el e)))%Z
}.

(** The same for a caller's condition. *)
Definition monotone_condition {Env V : Type} (B : Browser Env)
    (condition : UI V) : Prop :=
  forall st, (clock B st <= clock B (snd (condition st)))%Z.

(** *** A test double for the browser *)

(** A page whose element (handle 7) appears at [ready_at] and becomes
    enabled at [enabled_at]; with [broken] set, the driver answers every
    search with an error of its own.  Each call takes 10 ms. *)
Record Page : Type := mkPage {
  now : Z;
  ready_at : Z;
  enabled_at : Z;
  broken : bool
}.

Definition tick (ms : Z) (p : Page) : Page :=
  {| now := now p + Z.max 0 ms; ready_at := ready_at p;
     enabled_at := enabled_at p; broken := broken p |}.

Definition page_browser : Browser Page :=
  {| monotonic := now;
     sleep := tick;
     drv_find_element := fun loc p =>
       (if broken p then Raise (WebDriverException "invalid selector")
        else if (ready_at p <=? now p)%Z then Ok 7%Z
        else Raise (NoSuchElementException "no such element"),
        tick 10 p);
     el_is_displayed := fun el p => (Ok true, tick 10 p);
     el_is_enabled := fun el p => (Ok (enabled_at p <=? now p)%Z, tick 10 p);
     el_click := fun el p => (Ok tt, tick 10 p);
     el_clear := fun el p => (Ok tt, tick 10 p);
     el_send_keys := fun el keys p => (Ok tt, tick 10 p);
     el_text := fun el p => (Ok "Sochi", tick 10 p) |}.

(** A condition that answers [None] until the page is ready and the
    string [done] from then on. *)
Definition page_condition : UI (Env := Page) PyVal := fun st =>
  (Ok (if (ready_at (env st) <=? now (env st))%Z then PStr "done" else PNone),
   mkState (tick 10 (env st)) (log st)).

Definition page0 (ready enabled : Z) (is_broken : bool) : State Page :=
  mkState (mkPage 0 ready enabled is_broken) [].

(** ** Notions used in the statements *)

(** The call that an attempt of [_request] hands to the transport. *)
Definition call_of {Conn : Type} (self : BaseApiClient Conn) (method furl : string)
    (params jsn : option PyVal) (hdrs : option (gmap string string))
    (timeout : Z) : Call :=
  mkCall method furl params jsn hdrs timeout (headers (session self)).

(** The attempts [k], [k+1], ..., [k+n-1] of a [range]. *)
Definition attempts_from (k n : nat) : list Z := map Z.of_nat (seq k n).
Arguments attempts_from : simpl never.

(** A transport that raises on every call. *)
Definition always_faults {Conn : Type}
    (send : Call -> Conn -> Res Response * Conn) : Prop :=
  forall call c, exists e c', send call c = (Raise e, c').

(** A client on the scripted transport, without token and with no
    default headers. *)
Definition scripted_client (script : list (Res Response))
    : BaseApiClient (list (Res Response)) :=
  BaseApiClient_init ∅ "https://api.test" None script.

(** The name that [extract_city_names] selects from an item: [name], or
    [city_name] when [name] is missing or false. *)
Definition city_name_of (d : list (string * PyVal)) : PyVal :=
  if truthy (assoc_get "name" d) then assoc_get "name" d
  else assoc_get "city_name" d.

Definition is_city (d : list (string * PyVal)) : bool :=
  py_eq_str (assoc_get "type" d) "city".

(** The items that add a name to the result. *)
Definition contributes (d : list (string * PyVal)) : bool :=
  is_city d && truthy (city_name_of d).

(** An item that the loop of [extract_city_names] can process: an object
    whose selected name, when it contributes, is hashable. *)
Definition well_formed_item (item : PyVal) : Prop :=
  exists d, item = PDict d
            /\ (contributes d = true -> is_Some (py_key (city_name_of d))).

(** How a wait ends, given the deadline and its last evaluation: with the
    value when it is true, with the exception when it is not an ignored
    one, and otherwise with a timeout, the deadline being over. *)
Definition settles {Env V : Type} `{Truthy V} (B : Browser Env) (end_time : Z)
    (last : Res V * State Env) (r : Res V) : Prop :=
  match last.1 with
  | Ok v =>
      if truthy v then r = Ok v
      else r = Raise (TimeoutException "") /\ (end_time < clock B last.2)%Z
  | Raise e =>
      if ignored e
      then r = Raise (TimeoutException "") /\ (end_time < clock B last.2)%Z
      else r = Raise e
  end.

(** What an evaluation of a condition adds to the log: probes only, and,
    when it answers with a true value, the events that [Seen] describes. *)
Definition probing {Env V : Type} `{Truthy V} (Seen : V -> list UiEvent -> Prop)
    (method : UI (Env := Env) V) : Prop :=
  forall st, exists evs,
    log (method st).2 = log st ++ evs
    /\ Forall (fun ev => is_probe ev = true) evs
    /\ (forall v, (method st).1 = Ok v -> truthy v = true -> Seen v evs).

(** The shape of the log of an interactive action that went from the log
    [before] to the log [after] with result [r]: first probes of the page
    and nothing else; then either nothing more, the wait having raised, or
    the probes end with the observation [ready el] of an element [el] and
    the calls [acts] on that element follow. *)
Definition waited_then_acted {A : Type} (before after : list UiEvent) (r : Res A)
    (ready : WebElement -> list UiEvent)
    (acted : WebElement -> list UiEvent -> Prop) : Prop :=
  exists probes acts,
    after = before ++ probes ++ acts
    /\ Forall (fun ev => is_probe ev = true) probes
    /\ ((exists e, r = Raise e /\ acts = [])
        \/ (exists el pre, probes = pre ++ ready el /\ acted el acts)).


(** The places of the example answer for the term [Sochi]. *)
Definition sochi_items : list PyVal :=
  [PDict [("type", PStr "city"); ("name", PStr "Sochi")];
   PDict [("type", PStr "airport"); ("name", PStr "Adler"); ("code", PStr "AER")];
   PDict [("type", PStr "city"); ("city_name", PStr "Adler")];
   PDict [("type", PStr "city"); ("name", PStr "Sochi"); ("city_name", PStr "Sotchi")];
   PDict [("type", PStr "city"); ("name", PStr "")]].

(** The page object of the examples, and a locator. *)
Definition page_object : BasePage := BasePage_init 10.
Definition search_button : Locator := ("css selector", "[data-test-id='form-submit']").

(** ** The main page ([tests/test_ui.py]) *)

Module By.
Definition CSS_SELECTOR : string := "css selector".
Definition XPATH : string := "xpath".
End By.

(** The locators of [MainPage]. *)
Definition ORIGIN_INPUT : Locator :=
  (By.CSS_SELECTOR, "[data-test-id='origin-autocomplete-field']").
Definition DESTINATION_INPUT : Locator :=
  (By.CSS_SELECTOR, "[data-test-id='destination-autocomplete-field']").
Definition DEPARTURE_DATE_FIELD : Locator :=
  (By.CSS_SELECTOR, "[data-test-id='departure-date-field']").
Definition SEARCH_BUTTON : Locator :=
  (By.CSS_SELECTOR, "[data-test-id='form-submit']").
Definition PASSENGERS_FIELD : Locator :=
  (By.CSS_SELECTOR, "[data-test-id='passengers-field']").
Definition CHILD_AGE_HINT : Locator :=
  (By.XPATH, "//*[contains(text(),'до 12 лет') or contains(text(),'child')]").
Definition CHEAP_TICKETS_LINK : Locator :=
  (By.XPATH, "//a[contains(text(),'Самые дешевые')]").
Definition SUGGESTION_ITEM : Locator :=
  (By.CSS_SELECTOR, "[data-test-id='suggest-item']").

(** [MainPage.DATE_CELL.format(date=...)] *)
Definition DATE_CELL (date : string) : string :=
  "[data-date='" +:+ date +:+ "']".

(** The locator [first_option] of [set_origin] and [set_destination]. *)
Definition first_option : Locator :=
  (By.CSS_SELECTOR, "[data-test-id='suggest-item']:first-child").

Section MainPage.
Context {Env : Type}.
Variable B : Browser Env.

(** [element.get_attribute(name)]: the value, or [None] when the element
    has no such attribute.  The call is not among those of [Browser]; it
    is threaded through the state without an entry in the log. *)
Variable el_get_attribute : WebElement -> string -> Env -> Res (option string) * Env.

Definition element_get_attribute (el : WebElement) (name : string)
    : UI (Env := Env) (option string) := fun st =>
  let '(r, e) := el_get_attribute el name (env st) in
  (r, mkState e (log st)).

(** Sequencing of two steps of which the first may run out of fuel. *)
Definition and_then {A C : Type} (m : option (Res A * State Env))
    (f : A -> State Env -> option (Res C * State Env))
    : option (Res C * State Env) :=
  match m with
  | None => None
  | Some (Raise e, st1) => Some (Raise e, st1)
  | Some (Ok a, st1) => f a st1
  end.

(** [MainPage.set_origin] *)
Definition set_origin (fuel : nat) (self : BasePage) (city : string)
    (st : State Env) : option (Res unit * State Env) :=
  and_then (send_keys B fuel self ORIGIN_INPUT city st) (fun _ st1 =>
  and_then (until B fuel (wait self)
              (presence_of_element_located B SUGGESTION_ITEM) st1) (fun _ st2 =>
  click B fuel self first_option st2)).

(** [MainPage.set_destination] *)
Definition set_destination (fuel : nat) (self : BasePage) (city : string)
    (st : State Env) : option (Res unit * State Env) :=
  and_then (send_keys B fuel self DESTINATION_INPUT city st) (fun _ st1 =>
  and_then (until B fuel (wait self)
              (presence_of_element_located B SUGGESTION_ITEM) st1) (fun _ st2 =>
  click B fuel self first_option st2)).

(** [MainPage.set_departure_date] *)
Definition set_departure_date (fuel : nat) (self : BasePage)
    (departure_date : string) (st : State Env)
    : option (Res unit * State Env) :=
  and_then (click B fuel self DEPARTURE_DATE_FIELD st) (fun _ st1 =>
  let date_locator := (By.CSS_SELECTOR, DATE_CELL departure_date) in
  click B fuel self date_locator st1).

(** [MainPage.is_search_button_enabled]: the bare [except:] catches
    whatever the body raises, also the [AttributeError] of a call on
    [False]. *)
Definition is_search_button_enabled (fuel : nat) (self : BasePage)
    (st : State Env) : option (Res bool * State Env) :=
  match find_clickable B fuel self SEARCH_BUTTON st with
  | None => None
  | Some (Raise _, st1) => Some (Ok false, st1)
  | Some (Ok None, st1) => Some (Ok false, st1)
  | Some (Ok (Some element), st1) =>
      let '(r, st2) := element_is_enabled B element st1 in
      Some (match r with Ok b => Ok b | Raise _ => Ok false end, st2)
  end.

(** [MainPage.open_passengers_menu] *)
Definition open_passengers_menu (fuel : nat) (self : BasePage)
    (st : State Env) : option (Res unit * State Env) :=
  click B fuel self PASSENGERS_FIELD st.

(** [MainPage.get_child_age_hint] *)
Definition get_child_age_hint (fuel : nat) (self : BasePage)
    (st : State Env) : option (Res string * State Env) :=
  get_text B fuel self CHILD_AGE_HINT st.

(** [MainPage.go_to_cheap_tickets] *)
Definition go_to_cheap_tickets (fuel : nat) (self : BasePage)
    (st : State Env) : option (Res unit * State Env) :=
  click B fuel self CHEAP_TICKETS_LINK st.

(** The two tests on the attributes of the date cell: [aria-disabled]
    is compared with [==], which [None] allows too; [in] needs a string on
    its right. *)
Definition date_cell_disabled (element : WebElement) : UI (Env := Env) bool :=
  ui_bind (element_get_attribute element "aria-disabled") (fun aria =>
  let disabled :=
    match aria with
    | Some v => String.eqb v "true"
    | None => false
    end in
  ui_bind (element_get_attribute element "class") (fun cls =>
  match cls with
  | Some c => ui_ret (disabled || contains "disabled" c)
  | None => fun st =>
      (Raise (TypeError "argument of type 'NoneType' is not iterable"), st)
  end)).

(** [MainPage.is_date_disabled] *)
Definition is_date_disabled (fuel : nat) (self : BasePage) (date_str : string)
    (st : State Env) : option (Res bool * State Env) :=
  and_then (click B fuel self DEPARTURE_DATE_FIELD st) (fun _ st1 =>
  let date_locator := (By.CSS_SELECTOR, DATE_CELL date_str) in
  and_then (find_element B fuel self date_locator st1) (fun element st2 =>
  Some (date_cell_disabled element st2))).

End MainPage.

(** The attachments recorded in a trace. *)
Fixpoint attachments (evs : list Event) : list Attachment :=
  match evs with
  | [] => []
  | EvRequest _ _ :: evs' => attachments evs'
  | EvAttach a :: evs' => a :: attachments evs'
  end.

(** An item with a [get]: an object. *)
Definition is_object (item : PyVal) : bool :=
  match item with
  | PDict _ => true
  | _ => false
  end.

(** The [code] that [extract_iata_codes] takes from an item, if any. *)
Definition iata_code_of (item : PyVal) : option PyVal :=
  match item with
  | PDict d =>
      if py_eq_str (assoc_get "type" d) "airport" && truthy (assoc_get "code" d)
      then Some (assoc_get "code" d)
      else None
  | _ => None
  end.

(** A page on which attributes are read: the date cell carries the given
    [aria-disabled] and [class]. *)
Definition page_attribute (aria cls : option string) (el : WebElement)
    (name : string) (p : Page) : Res (option string) * Page :=
  (Ok (if String.eqb name "aria-disabled" then aria
       else if String.eqb name "class" then cls
       else None),
   tick 10 p).

(** What an endpoint method gives back, in terms of its attempts. *)
Definition endpoint_contract (r : Res PyVal) (evs : list Event) : Prop :=
  (forall v, r = Ok v ->
     exists call resp,
       last (attempts evs) = Some (call, Ok resp)
       /\ status_code resp = 200%Z /\ json resp = Ok v)
  /\ (forall i call resp,
        attempts evs !! i = Some (call, Ok resp) ->
        status_code resp <> 200%Z ->
        length (attempts evs) = S i
        /\ exists msg,
             r = Raise (AssertionError msg)
             /\ contains (str_int (status_code resp)) msg = true
             /\ contains (text resp) msg = true)
  /\ (forall x, r = Raise x ->
        (exists msg, x = AssertionError msg)
        \/ exists call resp,
             last (attempts evs) = Some (call, Ok resp)
             /\ status_code resp = 200%Z /\ json resp = Raise x).

(** The observation that makes an element clickable. *)
Definition clickable_seen (loc : Locator) (el : WebElement) : list UiEvent :=
  [UFind loc (Ok el); UIsDisplayed el (Ok true); UIsEnabled el (Ok true)].

(** The log of a [click] on [loc]. *)
Definition clicked_when_ready (loc : Locator) (before after : list UiEvent)
    (r : Res unit) : Prop :=
  waited_then_acted before after r (clickable_seen loc)
    (fun el acts => acts = [UClick el r]).

(** The log of a [send_keys] on [loc]. *)
Definition typed_when_present (loc : Locator) (keys : string)
    (before after : list UiEvent) (r : Res unit) : Prop :=
  waited_then_acted before after r (fun el => [UFind loc (Ok el)])
    (fun el acts =>
       (exists e, r = Raise e /\ acts = [UClear el (Raise e)])
       \/ acts = [UClear el (Ok tt); USendKeys el keys r]).

(** The attributes of the cell of the examples. *)
Definition cell_attributes (aria cls : option string) (el : WebElement)
    (name : string) : option string :=
  if String.eqb name "aria-disabled" then aria
  else if String.eqb name "class" then cls
  else None.

(** An absolute URL as the description of [_request] has it (a full URL,
    as opposed to a path under [base_url]): one that names its scheme,
    [http://] or [https://], in either case of the letters. *)
Definition is_absolute (url : string) : bool :=
  String.prefix "http://" (lower url) || String.prefix "https://" (lower url).

(** The headers given with a call hold nothing under [name], in any case
    of its letters. *)
Definition gives_no (name : string) (hdrs : option (gmap string string)) : Prop :=
  forall k, lower k = lower name -> default ∅ hdrs !! k = None.

(** The header that a request carries under [name].  [Session.request]
    of [requests] merges the headers given with the call into those of the
    session, both taken without regard to the case of the names
    ([merge_setting] on a [CaseInsensitiveDict]): the request carries the
    value given with the call under that name, and the value of the session
    only when the call gives none.  (Credentials in the URL or in a netrc
    file, from which [requests] builds an [Authorization] header of its
    own, are not part of the model.) *)
Definition carries (call : Call) (name value : string) : Prop :=
  (exists k, lower k = lower name /\ default ∅ (c_headers call) !! k = Some value)
  \/ (gives_no name (c_headers call)
      /\ exists k, lower k = lower name /\ c_session_headers call !! k = Some value).

(** A request that brings an [Authorization] header of its own. *)
Definition own_authorization : Request :=
  mkRequest "POST" "" None None (Some {["Authorization" := "Bearer other"]}) 30 3.

(** A condition that fails with an error of the driver when it is first
    evaluated and answers [done] from the next evaluation on. *)
Definition flaky_condition : UI (Env := Page) PyVal := fun st =>
  (if (now (env st) =? 0)%Z
   then Raise (WebDriverException "stale element reference")
   else Ok (PStr "done"),
   mkState (tick 10 (env st)) (log st)).

(** "Wait for the readiness condition, then act": how an action that
    polls [method] under the wait [w] from the state [st] and hands the
    value found to [act] comes to its result [r] and its final state [st'].
    The condition is evaluated [k+1] times, with a sleep after each of the
    first [k] evaluations, which all asked for another poll before the
    deadline.  The last evaluation decides: on a true value [act] runs on
    that value in the state that the evaluation left, and its outcome is
    that of the action; otherwise nothing is done after that evaluation,
    and the action raises the exception of the condition when it is not an
    ignored one, and a timeout, the deadline being over, when it is. *)
Definition waits_then_acts {Env V A : Type} `{Truthy V} (B : Browser Env)
    (w : WebDriverWait) (method : UI (Env := Env) V)
    (act : V -> UI (Env := Env) A)
    (st : State Env) (r : Res A) (st' : State Env) : Prop :=
  let end_time := (clock B st + 1000 * wd_timeout w)%Z in
  exists k : nat,
    (forall j, (j < k)%nat ->
       not_yet (poll B (wd_poll w) method j st).1 = true
       /\ (clock B (poll B (wd_poll w) method j st).2 <= end_time)%Z)
    /\ let last := poll B (wd_poll w) method k st in
       match last.1 with
       | Ok v =>
           if truthy v then (r, st') = act v last.2
           else r = Raise (TimeoutException "") /\ st' = last.2
                /\ (end_time < clock B last.2)%Z
       | Raise e =>
           st' = last.2
           /\ if ignored e
              then r = Raise (TimeoutException "") /\ (end_time < clock B last.2)%Z
              else r = Raise e
       end.

(** [.click()] on what [find_clickable] has returned. *)
Definition click_found {Env : Type} (B : Browser Env) (v : option WebElement)
    : UI (Env := Env) unit :=
  match v with
  | Some element => element_click B element
  | None => fun st =>
      (Raise (AttributeError "'bool' object has no attribute 'click'"), st)
  end.

(** [element.clear()] and then [element.send_keys(text)]. *)
Definition clear_and_type {Env : Type} (B : Browser Env) (keys : string)
    (element : WebElement) : UI (Env := Env) unit :=
  ui_bind (element_clear B element) (fun _ => element_send_keys B element keys).

(** A [click] on [loc] that goes from [st] to the result [r] in [st']; the
    same for [send_keys], for [get_text] and for a bare wait for the
    presence of an element. *)
Definition clicks {Env : Type} (B : Browser Env) (w : WebDriverWait)
    (loc : Locator) (st : State Env) (r : Res unit) (st' : State Env) : Prop :=
  waits_then_acts B w (element_to_be_clickable B loc) (click_found B) st r st'.

Definition types {Env : Type} (B : Browser Env) (w : WebDriverWait)
    (loc : Locator) (keys : string) (st : State Env) (r : Res unit)
    (st' : State Env) : Prop :=
  waits_then_acts B w (presence_of_element_located B loc) (clear_and_type B keys)
    st r st'.

Definition reads {Env : Type} (B : Browser Env) (w : WebDriverWait)
    (loc : Locator) (st : State Env) (r : Res string) (st' : State Env) : Prop :=
  waits_then_acts B w (presence_of_element_located B loc) (element_text B) st r st'.

Definition awaits {Env : Type} (B : Browser Env) (w : WebDriverWait)
    (loc : Locator) (st : State Env) (r : Res WebElement) (st' : State Env) : Prop :=
  waits_then_acts B w (presence_of_element_located B loc) ui_ret st r st'.

(** [set_departure_date] from [st] to the result [r] in [st']: a click on
    the date field, and, in the state that this click has left and only
    when it has returned, a click on the cell of the date. *)
Definition clicks_field_then_cell {Env : Type} (B : Browser Env)
    (w : WebDriverWait) (cell : Locator) (st : State Env) (r : Res unit)
    (st' : State Env) : Prop :=
  exists r1 st1,
    clicks B w DEPARTURE_DATE_FIELD st r1 st1
    /\ clicked_when_ready DEPARTURE_DATE_FIELD (log st) (log st1) r1
    /\ match r1 with
       | Raise e => r = Raise e /\ st' = st1
       | Ok _ =>
           clicks B w cell st1 r st'
           /\ clicked_when_ready cell (log st1) (log st') r
       end.

(** [set_origin] and [set_destination] on the input [loc], from [st] to
    the result [r] in [st']: the city is typed; in the state that the
    typing has left, and only when it has returned, a suggestion is waited
    for, with probes only; in the state that this wait has left, and only
    when it has found one, the first option is clicked. *)
Definition types_then_picks {Env : Type} (B : Browser Env) (w : WebDriverWait)
    (loc : Locator) (city : string) (st : State Env) (r : Res unit)
    (st' : State Env) : Prop :=
  exists r1 st1,
    types B w loc city st r1 st1
    /\ typed_when_present loc city (log st) (log st1) r1
    /\ match r1 with
       | Raise e => r = Raise e /\ st' = st1
       | Ok _ =>
           exists r2 st2,
             awaits B w SUGGESTION_ITEM st1 r2 st2
             /\ (exists probes,
                   log st2 = log st1 ++ probes
                   /\ Forall (fun ev => is_probe ev = true) probes)
             /\ match r2 with
                | Raise e => r = Raise e /\ st' = st2
                | Ok _ =>
                    clicks B w first_option st2 r st'
                    /\ clicked_when_ready first_option (log st2) (log st') r
                end
       end.

(** * Properties of the request client *)

Section ClientFacts.
Context {Conn : Type}.
Variable send : Call -> Conn -> Res Response * Conn.
Variable default_headers : gmap string string.

Ltac step_send self :=
  unfold session_request;
  let r := fresh "r" in
  let c' := fresh "c'" in
  let Hsend := fresh "Hsend" in
  destruct (send _ (conn (session self))) as [r c'] eqn:Hsend.

(** Every attempt of one [_request] hands the same call to the transport,
    and the client keeps its headers, base URL and token. *)
Lemma request_loop_calls (self : BaseApiClient Conn) method furl params jsn hdrs
    timeout retry todo :
  let '(r, self', evs) :=
    request_loop send self method furl params jsn hdrs timeout retry todo in
  Forall (fun a => a.1 = call_of self method furl params jsn hdrs timeout)
    (attempts evs)
  /\ headers (session self') = headers (session self)
  /\ base_url self' = base_url self /\ token self' = token self.
Proof.
  revert self. induction todo as [|attempt todo IH]; intros self; simpl.
  - by repeat split.
  - step_send self.
    destruct r as [response|e]; simpl.
    + split_and!; auto.
    + destruct (attempt =? retry - 1)%Z; simpl.
      * split_and!; auto.
      * specialize (IH (mkClient (base_url self) (token self)
                          (mkSession (headers (session self)) c'))).
        destruct (request_loop _ _ _ _ _ _ _ _ _ todo) as [[r' self''] evs].
        simpl in *. destruct IH as (Hall & Hh & Hb & Ht).
        split_and!; auto.
Qed.

(** A response ends the loop: it is the outcome of the last attempt and
    the result of the call. *)
Lemma request_loop_response (self : BaseApiClient Conn) method furl params jsn
    hdrs timeout retry todo :
  let '(r, _, evs) :=
    request_loop send self method furl params jsn hdrs timeout retry todo in
  forall i call resp,
    attempts evs !! i = Some (call, Ok resp) ->
    r = Ok resp /\ length (attempts evs) = S i.
Proof.
  revert self. induction todo as [|attempt todo IH]; intros self; simpl.
  - intros i call resp Hi. by destruct i.
  - step_send self.
    destruct r as [response|e]; simpl.
    + intros [|i] call resp Hi; simpl in Hi; [|by destruct i].
      by inversion Hi.
    + destruct (attempt =? retry - 1)%Z; simpl.
      * intros [|i] call resp Hi; simpl in Hi; [done|by destruct i].
      * specialize (IH (mkClient (base_url self) (token self)
                          (mkSession (headers (session self)) c'))).
        destruct (request_loop _ _ _ _ _ _ _ _ _ todo) as [[r' self''] evs].
        simpl. intros [|i] call resp Hi; simpl in Hi; [done|].
        destruct (IH i call resp Hi) as [-> Hlen]. by rewrite Hlen.
Qed.

(** When the first reply is a response, there is one attempt. *)
Lemma request_loop_first_response (self : BaseApiClient Conn) method furl params
    jsn hdrs timeout retry attempt todo resp c' :
  send (call_of self method furl params jsn hdrs timeout) (conn (session self))
    = (Ok resp, c') ->
  let '(r, _, evs) :=
    request_loop send self method furl params jsn hdrs timeout retry
      (attempt :: todo) in
  r = Ok resp /\
  attempts evs = [(call_of self method furl params jsn hdrs timeout, Ok resp)].
Proof.
  intros Hsend. simpl. unfold session_request.
  unfold call_of in Hsend. rewrite Hsend. simpl. done.
Qed.

Lemma py_range_pos retry :
  (0 < retry)%Z -> exists todo, py_range retry = 0%Z :: todo.
Proof.
  intros H. unfold py_range.
  destruct (Z.to_nat retry) as [|n] eqn:Hn; [lia|]. simpl. eauto.
Qed.

Lemma py_range_nonpos retry : (retry <= 0)%Z -> py_range retry = [].
Proof.
  intros H. unfold py_range. replace (Z.to_nat retry) with 0%nat by lia. done.
Qed.

Lemma py_range_attempts retry :
  py_range retry = attempts_from 0 (Z.to_nat retry).
Proof. reflexivity. Qed.

Lemma attempts_from_S k n :
  attempts_from k (S n) = Z.of_nat k :: attempts_from (S k) n.
Proof. reflexivity. Qed.

(** With a transport that always raises, the loop goes through all the
    attempts that are left and reports the last exception. *)
Lemma request_loop_all_fail method furl params jsn hdrs timeout retry n :
  always_faults send ->
  forall k (self : BaseApiClient Conn),
  (k + S n)%nat = Z.to_nat retry ->
  let '(r, _, evs) :=
    request_loop send self method furl params jsn hdrs timeout retry
      (attempts_from k (S n)) in
  exists e call,
    r = Raise (AssertionError ("Запрос не выполнен после " +:+ str_int retry
                               +:+ " попыток: " +:+ str_exn e))
    /\ length (attempts evs) = S n
    /\ last (attempts evs) = Some (call, Raise e).
Proof.
  intros Hdown. induction n as [|n IH]; intros k self Hk;
    rewrite attempts_from_S; cbn [request_loop]; step_send self;
    match type of Hsend with send ?call _ = _ =>
      destruct (Hdown call (conn (session self))) as (e & c1 & He) end;
    rewrite He in Hsend; inversion Hsend; subst; clear Hsend.
  - replace (Z.of_nat k =? retry - 1)%Z with true by lia. simpl. eauto.
  - replace (Z.of_nat k =? retry - 1)%Z with false by lia.
    specialize (IH (S k) (mkClient (base_url self) (token self)
                          (mkSession (headers (session self)) c')) ltac:(lia)).
    destruct (request_loop _ _ _ _ _ _ _ _ _ _) as [[r' self''] evs].
    destruct IH as (e' & call & -> & Hlen & Hlast).
    exists e', call. simpl. rewrite Hlen. split; [done|]. split; [done|].
    destruct (attempts evs); [done|]. done.
Qed.



(** The endpoint methods pass no headers of their own. *)
Lemma request_ok_calls (self : BaseApiClient Conn) method url params jsn :
  Forall (fun a => c_session_headers a.1 = headers (session self)
                   /\ c_headers a.1 = None)
    (attempts (request_ok send self method url params jsn).2).
Proof.
  unfold request_ok, _request.
  pose proof (request_loop_calls self method (full_url self url) params jsn None
                Config.TIMEOUT Config.RETRY_COUNT (py_range Config.RETRY_COUNT))
    as Hone.
  destruct (request_loop _ _ _ _ _ _ _ _ _ _) as [[r self1] evs1]. simpl.
  destruct Hone as (Hcalls & _).
  eapply Forall_impl; [exact Hcalls|]. by intros [call o] ->.
Qed.

(** [FlightSearchApiClient.search_flights] sends the token of the
    configuration with every attempt. *)
Lemma search_flights_sends_token (c : Conn) origin destination depart_date
    return_date trip_class adults children infants :
  Forall (fun a => c_session_headers a.1 !! "Authorization"
                   = Some ("Token " +:+ Config.TOKEN)
                   /\ c_headers a.1 = None)
    (attempts (search_flights send (FlightSearchApiClient_init default_headers c)
                 origin destination depart_date return_date trip_class adults
                 children infants).2).
Proof.
  unfold search_flights.
  eapply Forall_impl; [apply request_ok_calls|].
  intros [call o] [-> ->]. split; [|done]. apply lookup_insert_eq.
Qed.

(** [SuggestApiClient.search_places_post] sends the headers of a fresh
    session and nothing else. *)
Lemma search_places_sends_no_token (c : Conn) term locale types :
  Forall (fun a => c_session_headers a.1 = default_headers
                   /\ c_headers a.1 = None)
    (attempts (search_places_post send (SuggestApiClient_init default_headers c)
                 term locale types).2).
Proof.
  unfold search_places_post.
  eapply Forall_impl; [apply request_ok_calls|]. by intros [call o] [-> ->].
Qed.

(** C1. [_request] spends no retry on an HTTP status: whatever response
    the transport returns, of any status code, is the outcome of the last
    attempt and is the result of the call as it is; when the transport
    answers the first attempt with a response and the budget is at least
    one, there is exactly one attempt. *)
Theorem request_returns_response_at_once
    (self : BaseApiClient Conn) (method url : string) (params jsn : option PyVal)
    (hdrs : option (gmap string string)) (timeout retry : Z) :
  let '(r, _, evs) := _request send self method url params jsn hdrs timeout retry in
  (forall i call resp,
      attempts evs !! i = Some (call, Ok resp) ->
      r = Ok resp /\ length (attempts evs) = S i)
  /\ (forall resp c',
        (0 < retry)%Z ->
        send (call_of self method (full_url self url) params jsn hdrs timeout)
          (conn (session self)) = (Ok resp, c') ->
        r = Ok resp /\ length (attempts evs) = 1%nat).
Proof.
  unfold _request.
  pose proof (request_loop_response self method (full_url self url) params jsn
                hdrs timeout retry (py_range retry)) as Hlast.
  destruct (request_loop _ _ _ _ _ _ _ _ _ _) as [[r self'] evs] eqn:Hrun.
  split; [exact Hlast|].
  intros resp c' Hretry Hsend.
  destruct (py_range_pos retry Hretry) as [todo Htodo].
  pose proof (request_loop_first_response self method (full_url self url) params
                jsn hdrs timeout retry 0%Z todo resp c' Hsend) as Hfirst.
  rewrite <- Htodo, Hrun in Hfirst. destruct Hfirst as [-> ->]. done.
Qed.

(** C2, as amended.  With a budget of at least one and a transport that
    always raises, [_request] makes exactly [retry] attempts and raises the
    error whose message carries [retry] and the text of the exception of
    the last attempt.  With a budget of at least two and a transport that
    raises on the first attempt and answers the second, it returns that
    response after exactly two attempts. *)
Theorem request_retries_within_budget
    (self : BaseApiClient Conn) (method url : string) (params jsn : option PyVal)
    (hdrs : option (gmap string string)) (timeout retry : Z) :
  let '(r, _, evs) := _request send self method url params jsn hdrs timeout retry in
  let call := call_of self method (full_url self url) params jsn hdrs timeout in
  ((1 <= retry)%Z -> always_faults send ->
     exists e call',
       r = Raise (AssertionError ("Запрос не выполнен после " +:+ str_int retry
                                  +:+ " попыток: " +:+ str_exn e))
       /\ length (attempts evs) = Z.to_nat retry
       /\ last (attempts evs) = Some (call', Raise e))
  /\ ((2 <= retry)%Z ->
      forall e c1 resp c2,
        send call (conn (session self)) = (Raise e, c1) ->
        send call c1 = (Ok resp, c2) ->
        r = Ok resp /\ length (attempts evs) = 2%nat).
Proof.
  unfold _request.
  destruct (request_loop _ _ _ _ _ _ _ _ _ _) as [[r self'] evs] eqn:Hrun.
  split.
  - intros Hretry Hdown.
    destruct (Z.to_nat retry) as [|n] eqn:Hn; [lia|].
    pose proof (request_loop_all_fail method (full_url self url) params jsn hdrs
                  timeout retry n Hdown 0%nat self ltac:(lia)) as Hall.
    rewrite py_range_attempts, Hn in Hrun. rewrite Hrun in Hall. exact Hall.
  - intros Hretry e c1 resp c2 H1 H2.
    rewrite py_range_attempts in Hrun.
    destruct (Z.to_nat retry) as [|[|n]] eqn:Hn; [lia|lia|].
    rewrite !attempts_from_S in Hrun. cbn [request_loop] in Hrun.
    unfold session_request, call_of in *. rewrite H1 in Hrun.
    assert (Hne : (Z.of_nat 0 =? retry - 1)%Z = false) by (apply Z.eqb_neq; lia).
    rewrite Hne in Hrun.
    cbn [session conn headers] in Hrun. rewrite H2 in Hrun.
    inversion Hrun; subst. done.
Qed.

(** C9. With a retry budget of zero or less, [_request] raises the
    fall-through assertion error and makes no attempt: the trace is empty
    and the client is as it was. *)
Theorem request_without_budget_makes_no_attempt
    (self : BaseApiClient Conn) (method url : string) (params jsn : option PyVal)
    (hdrs : option (gmap string string)) (timeout retry : Z) :
  (retry <= 0)%Z ->
  _request send self method url params jsn hdrs timeout retry
  = (Raise (AssertionError "Не удалось выполнить запрос"), self, []).
Proof.
  intros Hretry. unfold _request. by rewrite py_range_nonpos.
Qed.

(** C8, as amended.  Every attempt of [_request] goes to the path itself
    when the path starts with the four characters [http], and to the base
    URL of the client followed by the path when it does not; with a budget
    of at least one, there is such an attempt. *)
Theorem request_resolves_url
    (self : BaseApiClient Conn) (method url : string) (params jsn : option PyVal)
    (hdrs : option (gmap string string)) (timeout retry : Z) :
  let '(_, _, evs) := _request send self method url params jsn hdrs timeout retry in
  (String.prefix "http" url = true ->
     Forall (fun a => c_url a.1 = url) (attempts evs))
  /\ (String.prefix "http" url = false ->
       Forall (fun a => c_url a.1 = base_url self +:+ url) (attempts evs))
  /\ ((0 < retry)%Z -> attempts evs <> []).
Proof.
  unfold _request.
  pose proof (request_loop_calls self method (full_url self url) params jsn hdrs
                timeout retry (py_range retry)) as Hcalls.
  destruct (request_loop _ _ _ _ _ _ _ _ _ _) as [[r self'] evs] eqn:Hrun.
  destruct Hcalls as (Hcalls & _).
  split_and!.
  - intros Habs. eapply Forall_impl; [exact Hcalls|].
    intros [call o] ->. simpl. unfold full_url. by rewrite Habs.
  - intros Hrel. eapply Forall_impl; [exact Hcalls|].
    intros [call o] ->. simpl. unfold full_url. by rewrite Hrel.
  - intros Hretry. destruct (py_range_pos retry Hretry) as [todo Htodo].
    rewrite Htodo in Hrun. cbn [request_loop] in Hrun.
    unfold session_request in Hrun.
    destruct (send _ (conn (session self))) as [[resp|e] c'].
    + inversion Hrun; subst. done.
    + destruct (0 =? retry - 1)%Z.
      * inversion Hrun; subst. done.
      * destruct (request_loop _ _ _ _ _ _ _ _ _ _) as [[r1 self1] evs1].
        inversion Hrun; subst. done.
Qed.



End ClientFacts.

(** *** The client on the test doubles *)

(** A budget of three against a transport that answers 400 at once. *)
Lemma request_returns_response_at_once_witness :
  let run := _request scripted (scripted_client [Ok response_400])
               "GET" "/search" None None None 30 3 in
  run.1.1 = Ok response_400 /\ length (attempts run.2) = 1%nat.
Proof.
  pose proof (request_returns_response_at_once scripted
                (scripted_client [Ok response_400])
                "GET" "/search" None None None 30 3) as H.
  intros run. subst run.
  destruct (_request _ _ _ _ _ _ _ _ _) as [[r self'] evs].
  destruct H as [_ H]. apply (H response_400 []); [lia|reflexivity].
Defined.

Lemma always_down_faults : always_faults always_down.
Proof. intros call c. by exists (RequestException "connection refused"), tt. Qed.

(** A budget of three against a transport that is down, and against one
    that times out once and then answers. *)
Lemma request_retries_within_budget_witness :
  (let run := _request always_down (BaseApiClient_init ∅ "https://api.test" None tt)
                "GET" "/search" None None None 30 3 in
   exists e,
     run.1.1 = Raise (AssertionError ("Запрос не выполнен после " +:+ str_int 3
                                      +:+ " попыток: " +:+ str_exn e))
     /\ length (attempts run.2) = 3%nat)
  /\ (let run := _request scripted
                   (scripted_client [Raise (RequestException "timed out");
                                     Ok response_a1])
                   "GET" "/search" None None None 30 3 in
      run.1.1 = Ok response_a1 /\ length (attempts run.2) = 2%nat).
Proof.
  split.
  - pose proof (request_retries_within_budget always_down
                  (BaseApiClient_init ∅ "https://api.test" None tt)
                  "GET" "/search" None None None 30 3) as H.
    intros run. subst run.
    destruct (_request _ _ _ _ _ _ _ _ _) as [[r self'] evs].
    destruct H as [H _].
    destruct (H ltac:(lia) always_down_faults) as (e & call & Hr & Hlen & _).
    exists e. split; [exact Hr|exact Hlen].
  - pose proof (request_retries_within_budget scripted
                  (scripted_client [Raise (RequestException "timed out");
                                    Ok response_a1])
                  "GET" "/search" None None None 30 3) as H.
    intros run. subst run.
    destruct (_request _ _ _ _ _ _ _ _ _) as [[r self'] evs].
    destruct H as [_ H].
    apply (H ltac:(lia) (RequestException "timed out") [Ok response_a1]
             response_a1 []); reflexivity.
Defined.

(** With a budget of one, a transport that raises once and would then
    answer is asked once: the call raises. *)
Lemma request_retry_once_counterexample :
  ~ (forall retry : Z, (1 <= retry)%Z ->
     forall e resp,
       let run := _request scripted (scripted_client [Raise e; Ok resp])
                    "GET" "/search" None None None 30 retry in
       run.1.1 = Ok resp /\ length (attempts run.2) = 2%nat).
Proof.
  intros H.
  specialize (H 1%Z ltac:(lia) (RequestException "timed out") response_a1).
  destruct H as [H _]. vm_compute in H. discriminate H.
Qed.

(** A budget of zero. *)
Lemma request_without_budget_witness :
  (0 <= 0)%Z
  /\ _request always_down (BaseApiClient_init ∅ "https://api.test" None tt)
       "GET" "/search" None None None 30 0
     = (Raise (AssertionError "Не удалось выполнить запрос"),
        BaseApiClient_init ∅ "https://api.test" None tt, []).
Proof.
  split; [lia|].
  apply (request_without_budget_makes_no_attempt always_down). lia.
Defined.

(** A path under the base URL, and an absolute one. *)
Lemma request_resolves_url_witness :
  (let run := _request scripted (scripted_client [Ok response_a1])
                "GET" "/search" None None None 30 3 in
   Forall (fun a => c_url a.1 = "https://api.test/search") (attempts run.2)
   /\ attempts run.2 <> [])
  /\ (let run := _request scripted (scripted_client [Ok response_a1])
                   "GET" "https://other.test/x" None None None 30 3 in
      Forall (fun a => c_url a.1 = "https://other.test/x") (attempts run.2)).
Proof.
  split.
  - pose proof (request_resolves_url scripted (scripted_client [Ok response_a1])
                  "GET" "/search" None None None 30 3) as H.
    intros run. subst run.
    destruct (_request _ _ _ _ _ _ _ _ _) as [[r self'] evs].
    destruct H as (_ & Hrel & Hne). split; [apply Hrel; reflexivity|apply Hne; lia].
  - pose proof (request_resolves_url scripted (scripted_client [Ok response_a1])
                  "GET" "https://other.test/x" None None None 30 3) as H.
    intros run. subst run.
    destruct (_request _ _ _ _ _ _ _ _ _) as [[r self'] evs].
    destruct H as (Habs & _). apply Habs. reflexivity.
Defined.

(** A path under the base URL that happens to start with [http] is not
    resolved: the attempt goes to the path as it is. *)
Lemma request_resolves_absolute_counterexample :
  ~ (forall url : string,
       let client := scripted_client [Ok response_a1] in
       let run := _request scripted client "GET" url None None None 30 3 in
       Forall (fun a => c_url a.1 = if is_absolute url then url
                                    else base_url client +:+ url)
         (attempts run.2)).
Proof.
  intros H. specialize (H "httpbin/get"). apply Forall_inv in H.
  vm_compute in H. discriminate H.
Qed.

(** Nor is [https] written in upper case, an absolute URL, left alone: it
    is glued behind the base URL. *)
Example request_glues_upper_case_scheme :
  is_absolute "HTTPS://other.test/x" = true
  /\ c_url <$> (fst <$> attempts
                  (_request scripted (scripted_client [Ok response_a1])
                     "GET" "HTTPS://other.test/x" None None None 30 3).2)
     = ["https://api.testHTTPS://other.test/x"].
Proof. split; vm_compute; reflexivity. Qed.




Example authorization_header_of_the_call :
  Forall (fun a => carries a.1 "Authorization" "Bearer other")
    (attempts (lifetime scripted (FlightSearchApiClient_init ∅ [Ok response_a1])
                 [own_authorization]).2).
Proof.
  constructor; [|constructor]. left. exists "Authorization". split; reflexivity.
Qed.

(** * Properties of [wait_for_ok] *)

(** C3, as amended.  [wait_for_ok] returns a value exactly when the
    status code is 200 and [response.json()] returns that value; on a
    status of 200 its outcome is that of [response.json()], which raises
    when the body is not JSON; on any other status it raises the assertion
    error whose message carries the status code and the body. *)
Theorem wait_for_ok_decodes_only_200 (response : Response) :
  (forall v, wait_for_ok response = Ok v
             <-> status_code response = 200%Z /\ json response = Ok v)
  /\ (status_code response = 200%Z -> wait_for_ok response = json response)
  /\ (status_code response <> 200%Z ->
      exists prefix,
        wait_for_ok response
        = Raise (AssertionError (prefix +:+ str_int (status_code response)
                                 +:+ ": " +:+ text response))).
Proof.
  unfold wait_for_ok.
  destruct (Z.eqb_spec (status_code response) 200) as [Heq|Hne].
  - split_and!; [|done|done]. intros v. split; [by intros ->|by intros [_ ->]].
  - split_and!; [|done|].
    + intros v. split; [done|]. by intros [? _].
    + intros _. by exists "Ожидался код 200, получен ".
Qed.

(** The body [{'a': 1}] with status 200, and a 404. *)
Lemma wait_for_ok_witness :
  wait_for_ok response_a1 = Ok (PDict [("a", PInt 1)])
  /\ response_404.(status_code) <> 200%Z
  /\ exists prefix,
       wait_for_ok response_404
       = Raise (AssertionError (prefix +:+ "404" +:+ ": " +:+ "not found")).
Proof.
  split_and!.
  - apply (wait_for_ok_decodes_only_200 response_a1). by split.
  - done.
  - apply (wait_for_ok_decodes_only_200 response_404). done.
Defined.

(** The message raised for a 404 contains [404], as the tests look for it
    with [in str(e)]. *)
Example wait_for_ok_404_message :
  exists msg, wait_for_ok response_404 = Raise (AssertionError msg)
              /\ contains "404" msg = true.
Proof. eexists. split; [reflexivity|]. vm_compute. reflexivity. Qed.

(** A response of status 200 whose body is not JSON: no value is
    returned, the error of the decoder comes out. *)
Lemma wait_for_ok_undecodable_counterexample :
  ~ (forall response,
       (exists v, wait_for_ok response = Ok v) <-> status_code response = 200%Z).
Proof.
  intros H. destruct (proj2 (H response_html) eq_refl) as [v Hv].
  vm_compute in Hv. discriminate Hv.
Qed.

(** * Properties of [extract_city_names] *)

Lemma set_add_spec v k s :
  py_key v = Some k ->
  NoDup (py_key <$> s) ->
  exists s',
    set_add v s = Ok s'
    /\ NoDup (py_key <$> s')
    /\ (forall u, u ∈ s' -> u ∈ s \/ u = v)
    /\ (forall u, u ∈ s -> u ∈ s')
    /\ (exists u, u ∈ s' /\ py_key u = py_key v).
Proof.
  intros Hk Hnd. unfold set_add. rewrite Hk.
  destruct (existsb _ s) eqn:Hex.
  - exists s. split_and!; auto.
    apply existsb_exists in Hex as (u & Hin & Hu).
    apply bool_decide_eq_true in Hu. exists u. split; [|congruence].
    by apply list_elem_of_In.
  - exists (s ++ [v]). split_and!; auto.
    + rewrite fmap_app. apply NoDup_app. split_and!; [done| |].
      * intros ok Hin Hin'. simpl in Hin'.
        apply list_elem_of_singleton in Hin'. subst ok.
        apply list_elem_of_fmap in Hin as (u & Hu & Hin).
        assert (existsb (fun u => bool_decide (py_key u = Some k)) s = true) as Habs.
        { apply existsb_exists. exists u. split; [by apply list_elem_of_In|].
          apply bool_decide_eq_true. congruence. }
        congruence.
      * simpl. apply NoDup_singleton.
    + intros u Hu. apply elem_of_app in Hu as [Hu|Hu]; [by left|].
      apply list_elem_of_singleton in Hu. by right.
    + intros u Hu. apply elem_of_app. by left.
    + exists v. split; [|done]. apply elem_of_app. right. by left.
Qed.

Lemma extract_loop_spec items :
  Forall well_formed_item items ->
  forall cities,
  NoDup (py_key <$> cities) ->
  exists cities',
    extract_loop items cities = Ok cities'
    /\ NoDup (py_key <$> cities')
    /\ (forall v, v ∈ cities' ->
          v ∈ cities \/
          exists d, PDict d ∈ items /\ is_city d = true
                    /\ truthy v = true /\ v = city_name_of d)
    /\ (forall v, v ∈ cities -> v ∈ cities')
    /\ (forall d, PDict d ∈ items -> contributes d = true ->
          exists v, v ∈ cities' /\ py_key v = py_key (city_name_of d)).
Proof.
  induction 1 as [|item items (d & -> & Hhash) Hwf IH]; intros cities Hnd.
  - exists cities. split_and!; auto.
    intros d Hin. by apply elem_of_nil in Hin.
  - cbn [extract_loop py_get mbind Res_bind].
    pose proof (eq_refl (contributes d)) as Hc. unfold contributes at 1 in Hc.
    unfold is_city, city_name_of in Hc, Hhash.
    assert (Hsel : (if truthy (assoc_get "name" d) then Ok (assoc_get "name" d)
                    else Ok (assoc_get "city_name" d))
                   = Ok (A := PyVal) (city_name_of d)).
    { unfold city_name_of. by destruct (truthy _). }
    destruct (py_eq_str (assoc_get "type" d) "city") eqn:Hty.
    + rewrite Hsel. cbn [mbind Res_bind].
      fold (city_name_of d) in Hc, Hhash.
      destruct (truthy (city_name_of d)) eqn:Htr.
      * simpl in Hc. destruct (Hhash (eq_sym Hc)) as [k Hk].
        destruct (set_add_spec _ _ cities Hk Hnd)
          as (s' & -> & Hnd' & Hsub & Hsup & (w & Hw & Hkw)).
        cbn [mbind Res_bind].
        destruct (IH s' Hnd') as (res & Hres & Hnd'' & Hsound & Hkeep & Hcompl).
        exists res. split_and!; auto.
        -- intros v Hv. destruct (Hsound v Hv) as [Hin|(d' & Hd' & ?)].
           ++ destruct (Hsub v Hin) as [?| ->]; [by left|].
              right. exists d. split_and!; auto. left.
           ++ right. exists d'. split; [by right|done].
        -- intros d' Hd' Hcd'. apply elem_of_cons in Hd' as [Heq|Hd'].
           ++ inversion Heq; subst d'. exists w. split; [by apply Hkeep|done].
           ++ by apply Hcompl.
      * destruct (IH cities Hnd) as (res & Hres & Hnd'' & Hsound & Hkeep & Hcompl).
        exists res. split_and!; auto.
        -- intros v Hv. destruct (Hsound v Hv) as [Hin|(d' & Hd' & ?)]; [by left|].
           right. exists d'. split; [by right|done].
        -- intros d' Hd' Hcd'. apply elem_of_cons in Hd' as [Heq|Hd'].
           ++ inversion Heq; subst d'. unfold contributes in Hcd'.
              rewrite Htr in Hcd'. by rewrite andb_false_r in Hcd'.
           ++ by apply Hcompl.
    + destruct (IH cities Hnd) as (res & Hres & Hnd'' & Hsound & Hkeep & Hcompl).
      exists res. split_and!; auto.
      * intros v Hv. destruct (Hsound v Hv) as [Hin|(d' & Hd' & ?)]; [by left|].
        right. exists d'. split; [by right|done].
      * intros d' Hd' Hcd'. apply elem_of_cons in Hd' as [Heq|Hd'].
        -- inversion Heq; subst d'. unfold contributes, is_city in Hcd'.
           by rewrite Hty in Hcd'.
        -- by apply Hcompl.
Qed.

(** C10, as amended.  On a list of objects in which the selected name
    of every contributing city item is hashable, [extract_city_names]
    returns a list without two equal elements; each of its elements is true
    and is the [name] (or, that one missing or false, the [city_name]) of an
    item of type [city]; and every city item with such a name has it, up
    to equality, in the result.  Items of another type and city items
    without a true name add nothing. *)
Theorem extract_city_names_of_well_formed_items (items : list PyVal) :
  Forall well_formed_item items ->
  exists cities,
    extract_city_names (PList items) = Ok cities
    /\ NoDup (py_key <$> cities)
    /\ (forall v, v ∈ cities ->
          exists d, PDict d ∈ items /\ is_city d = true
                    /\ truthy v = true /\ v = city_name_of d)
    /\ (forall d, PDict d ∈ items -> contributes d = true ->
          exists v, v ∈ cities /\ py_key v = py_key (city_name_of d)).
Proof.
  intros Hwf. unfold extract_city_names. cbn [py_iter mbind Res_bind].
  destruct (extract_loop_spec items Hwf [] (NoDup_nil_2 (A := option HKey)))
    as (res & Hres & Hnd & Hsound & _ & Hcompl).
  exists res. split_and!; auto.
  intros v Hv. destruct (Hsound v Hv) as [Hin|?]; [|done].
  by apply elem_of_nil in Hin.
Qed.

Lemma sochi_items_well_formed : Forall well_formed_item sochi_items.
Proof.
  repeat constructor; eexists; (split; [reflexivity|]); intros _; vm_compute; eauto.
Qed.

(** The example answer for [Sochi] yields a list with [Sochi] in it. *)
Lemma extract_city_names_witness :
  Forall well_formed_item sochi_items
  /\ exists cities,
       extract_city_names (PList sochi_items) = Ok cities
       /\ NoDup (py_key <$> cities)
       /\ exists v, v ∈ cities /\ py_key v = Some (KStr "Sochi").
Proof.
  split; [exact sochi_items_well_formed|].
  destruct (extract_city_names_of_well_formed_items sochi_items
              sochi_items_well_formed) as (cities & Hrun & Hnd & _ & Hcompl).
  exists cities. split; [exact Hrun|]. split; [exact Hnd|].
  apply (Hcompl [("type", PStr "city"); ("name", PStr "Sochi")]); [left|reflexivity].
Defined.

(** The run on the items of the example; the list is in the order of
    insertion, which the model keeps and Python does not promise. *)
Example extract_city_names_sochi :
  extract_city_names (PList sochi_items) = Ok [PStr "Sochi"; PStr "Adler"].
Proof. vm_compute. reflexivity. Qed.

(** [True] and [1] are equal in Python: the set keeps the first. *)
Example extract_city_names_equal_names :
  extract_city_names
    (PList [PDict [("type", PStr "city"); ("name", PBool true)];
            PDict [("type", PStr "city"); ("name", PInt 1)]])
  = Ok [PBool true].
Proof. vm_compute. reflexivity. Qed.

(** A city whose name is a list cannot be put into the set: the call
    raises and returns no list. *)
Lemma extract_city_names_unhashable_counterexample :
  ~ (forall response_json,
       exists cities, extract_city_names response_json = Ok cities
                      /\ NoDup (py_key <$> cities)).
Proof.
  intros H.
  destruct (H (PList [PDict [("type", PStr "city");
                             ("name", PList [PStr "Sochi"])]]))
    as (cities & Hrun & _).
  vm_compute in Hrun. discriminate Hrun.
Qed.

(** An object instead of a list of objects, as the annotation
    [Dict[str, Any]] of the parameter has it: the loop walks over the keys,
    which are strings without a [get]. *)
Example extract_city_names_of_object :
  extract_city_names (PDict [("type", PStr "city"); ("name", PStr "Sochi")])
  = Raise (AttributeError "object has no attribute 'get'").
Proof. vm_compute. reflexivity. Qed.

(** * Properties of the wait engine *)

Section WaitFacts.
Context {Env : Type}.
Variable B : Browser Env.

(** A finished wait has evaluated its condition [k+1] times; the first
    [k] evaluations asked for another poll before the deadline, and the
    last one settles the result. *)
Lemma until_loop_polls {V : Type} `{Truthy V} (end_time ms : Z) (method : UI V) fuel :
  forall st r st',
  until_loop B fuel end_time ms method st = Some (r, st') ->
  exists k,
    (k < fuel)%nat
    /\ (forall j, (j < k)%nat ->
          not_yet (poll B ms method j st).1 = true
          /\ (clock B (poll B ms method j st).2 <= end_time)%Z)
    /\ st' = (poll B ms method k st).2
    /\ settles B end_time (poll B ms method k st) r.
Proof.
  induction fuel as [|fuel IH]; intros st r st' Hrun; [done|].
  cbn [until_loop] in Hrun.
  destruct (method st) as [r0 st1] eqn:Hm.
  assert (Hstop : forall r1 : Res V,
             not_yet r0 = true ->
             (if (end_time <? clock B st1)%Z
              then Some (Raise (TimeoutException ""), st1)
              else until_loop B fuel end_time ms method (do_sleep B ms st1))
             = Some (r1, st') ->
             exists k,
               (k < S fuel)%nat
               /\ (forall j, (j < k)%nat ->
                     not_yet (poll B ms method j st).1 = true
                     /\ (clock B (poll B ms method j st).2 <= end_time)%Z)
               /\ st' = (poll B ms method k st).2
               /\ settles B end_time (poll B ms method k st) r1).
  { intros r1 Hny Hagain. destruct (Z.ltb_spec end_time (clock B st1)) as [Hlate|Hearly].
    - inversion Hagain; subst. exists 0%nat. split_and!; [lia|intros; lia| |].
      + unfold poll. simpl. by rewrite Hm.
      + unfold settles, poll. simpl. rewrite Hm. simpl.
        destruct r0 as [v|e]; simpl in Hny.
        * apply negb_true_iff in Hny. by rewrite Hny.
        * by rewrite Hny.
    - destruct (IH _ _ _ Hagain) as (k & Hk & Hbefore & Hst & Hend).
      exists (S k). unfold poll in *. cbn [poll_state]. rewrite Hm. simpl.
      split_and!; [lia| |done|done].
      intros [|j] Hj; simpl.
      + rewrite Hm. simpl. done.
      + rewrite Hm. simpl. apply Hbefore. lia. }
  destruct r0 as [v|e].
  - destruct (truthy v) eqn:Hv.
    + inversion Hrun; subst. exists 0%nat. split_and!; [lia|intros; lia| |].
      * unfold poll. simpl. by rewrite Hm.
      * unfold settles, poll. simpl. rewrite Hm. simpl. by rewrite Hv.
    + apply Hstop; [|done]. simpl. by rewrite Hv.
  - destruct (ignored e) eqn:He.
    + apply Hstop; [|done]. done.
    + inversion Hrun; subst. exists 0%nat. split_and!; [lia|intros; lia| |].
      * unfold poll. simpl. by rewrite Hm.
      * unfold settles, poll. simpl. rewrite Hm. simpl. by rewrite He.
Qed.

(** The loop ends: each round takes the clock at least [ms] further. *)
Lemma until_loop_terminates {V : Type} `{Truthy V} (end_time ms : Z) (method : UI V) :
  (0 < ms)%Z ->
  (forall e, (monotonic B e + ms <= monotonic B (sleep B ms e))%Z) ->
  monotone_condition B method ->
  forall n st,
  (end_time - clock B st < Z.of_nat n)%Z ->
  is_Some (until_loop B (S n) end_time ms method st).
Proof.
  intros Hms Hsleep Hmono. induction n as [|n IH]; intros st Hlt;
    cbn [until_loop]; pose proof (Hmono st) as Hst;
    destruct (method st) as [r0 st1]; simpl in Hst.
  - destruct (Z.ltb_spec end_time (clock B st1)); [|lia].
    destruct r0 as [v|e]; [destruct (truthy v)|destruct (ignored e)]; eauto.
  - assert (is_Some (if (end_time <? clock B st1)%Z
                     then Some (Raise (A := V) (TimeoutException ""), st1)
                     else until_loop B (S n) end_time ms method (do_sleep B ms st1)))
      as Hagain.
    { destruct (Z.ltb_spec end_time (clock B st1)); [eauto|].
      apply IH. unfold clock, do_sleep in *. simpl.
      specialize (Hsleep (env st1)). lia. }
    destruct r0 as [v|e]; [destruct (truthy v)|destruct (ignored e)]; eauto.
Qed.

(** More fuel does not change the result of a wait. *)
Lemma until_loop_more_fuel {V : Type} `{Truthy V} (end_time ms : Z)
    (method : UI V) fuel :
  forall st x,
  until_loop B fuel end_time ms method st = Some x ->
  until_loop B (S fuel) end_time ms method st = Some x.
Proof.
  induction fuel as [|n IH]; intros st x Hrun; [done|].
  remember (S n) as m eqn:Hm. cbn [until_loop].
  rewrite Hm in Hrun. cbn [until_loop] in Hrun.
  destruct (method st) as [r st1].
  assert (Hagain :
            (if (end_time <? clock B st1)%Z
             then Some (Raise (TimeoutException ""), st1)
             else until_loop B n end_time ms method (do_sleep B ms st1)) = Some x ->
            (if (end_time <? clock B st1)%Z
             then Some (Raise (TimeoutException ""), st1)
             else until_loop B m end_time ms method (do_sleep B ms st1)) = Some x).
  { destruct (end_time <? clock B st1)%Z; [done|]. apply IH. }
  destruct r as [v|e]; [destruct (truthy v)|destruct (ignored e)]; auto.
Qed.

Lemma until_terminates {V : Type} `{Truthy V} (timeout : Z) (method : UI V) st :
  BrowserLaws B ->
  monotone_condition B method ->
  exists fuel, is_Some (until B fuel (WebDriverWait_new timeout) method st).
Proof.
  intros Hlaws Hmono. exists (S (Z.to_nat (1000 * timeout + 1))).
  unfold until. apply until_loop_terminates; [done| |done|].
  - intros e. apply (sleep_advances B Hlaws).
  - simpl. lia.
Qed.


Lemma presence_monotone loc :
  BrowserLaws B -> monotone_condition B (presence_of_element_located B loc).
Proof.
  intros Hlaws st. unfold presence_of_element_located, driver_find_element, clock.
  pose proof (find_monotone B Hlaws loc (env st)) as Hf.
  by destruct (drv_find_element B loc (env st)).
Qed.

Lemma clickable_monotone loc :
  BrowserLaws B -> monotone_condition B (element_to_be_clickable B loc).
Proof.
  intros Hlaws st.
  unfold element_to_be_clickable, ui_bind, ui_ret, driver_find_element,
    element_is_displayed, element_is_enabled, clock.
  pose proof (find_monotone B Hlaws loc (env st)) as Hf.
  destruct (drv_find_element B loc (env st)) as [[el|e] e1]; simpl in *; [|done].
  pose proof (displayed_monotone B Hlaws el e1) as Hd.
  destruct (el_is_displayed B el e1) as [[[|]|e] e2]; simpl in *; [|lia|lia].
  pose proof (enabled_monotone B Hlaws el e2) as Hen.
  destruct (el_is_enabled B el e2) as [[b|e] e3]; simpl in *; lia.
Qed.

Lemma presence_probing loc :
  probing (fun el evs => evs = [UFind loc (Ok el)])
    (presence_of_element_located B loc).
Proof.
  intros st. unfold presence_of_element_located, driver_find_element.
  destruct (drv_find_element B loc (env st)) as [r e1]. simpl.
  exists [UFind loc r]. split_and!; [done|by repeat constructor|].
  by intros v -> _.
Qed.

Lemma clickable_probing loc :
  probing (fun v evs => exists el,
             v = Some el
             /\ evs = [UFind loc (Ok el); UIsDisplayed el (Ok true);
                       UIsEnabled el (Ok true)])
    (element_to_be_clickable B loc).
Proof.
  intros st.
  unfold element_to_be_clickable, ui_bind, ui_ret, driver_find_element,
    element_is_displayed, element_is_enabled.
  destruct (drv_find_element B loc (env st)) as [[el|e] e1]; simpl.
  2: { exists [UFind loc (Raise e)]. split_and!; [done|by repeat constructor|done]. }
  destruct (el_is_displayed B el e1) as [[[|]|e] e2]; simpl.
  - destruct (el_is_enabled B el e2) as [[b|e] e3]; simpl.
    + exists [UFind loc (Ok el); UIsDisplayed el (Ok true); UIsEnabled el (Ok b)].
      split_and!; [by rewrite <- !app_assoc|by repeat constructor|].
      intros v Hv Htr. destruct b; inversion Hv; subst; [|done]. by exists el.
    + exists [UFind loc (Ok el); UIsDisplayed el (Ok true); UIsEnabled el (Raise e)].
      split_and!; [by rewrite <- !app_assoc|by repeat constructor|done].
  - exists [UFind loc (Ok el); UIsDisplayed el (Ok false)].
    split_and!; [by rewrite <- !app_assoc|by repeat constructor|].
    intros v Hv Htr. by inversion Hv; subst.
  - exists [UFind loc (Ok el); UIsDisplayed el (Raise e)].
    split_and!; [by rewrite <- !app_assoc|by repeat constructor|done].
Qed.

(** A wait on a probing condition adds probes only to the log, and ends,
    when it returns, with what the condition has seen. *)
Lemma until_loop_log {V : Type} `{Truthy V} (Seen : V -> list UiEvent -> Prop)
    (method : UI V) (end_time ms : Z) fuel :
  probing Seen method ->
  forall st r st',
  until_loop B fuel end_time ms method st = Some (r, st') ->
  exists evs,
    log st' = log st ++ evs
    /\ Forall (fun ev => is_probe ev = true) evs
    /\ (forall v, r = Ok v ->
          truthy v = true /\ exists pre last, evs = pre ++ last /\ Seen v last).
Proof.
  intros Hprobe. induction fuel as [|fuel IH]; intros st r st' Hrun; [done|].
  cbn [until_loop] in Hrun.
  destruct (Hprobe st) as (evs0 & Hlog0 & Hall0 & Hseen0).
  destruct (method st) as [r0 st1]. simpl in *.
  assert (Hstop : forall r1 : Res V,
             (if (end_time <? clock B st1)%Z
              then Some (Raise (TimeoutException ""), st1)
              else until_loop B fuel end_time ms method (do_sleep B ms st1))
             = Some (r1, st') ->
             exists evs,
               log st' = log st ++ evs
               /\ Forall (fun ev => is_probe ev = true) evs
               /\ (forall v, r1 = Ok v ->
                     truthy v = true
                     /\ exists pre last, evs = pre ++ last /\ Seen v last)).
  { intros r1 Hagain. destruct (end_time <? clock B st1)%Z.
    - inversion Hagain; subst. exists evs0. split_and!; [done|done|done].
    - destruct (IH _ _ _ Hagain) as (evs & Hlog & Hall & Hseen).
      simpl in Hlog. rewrite Hlog0 in Hlog.
      exists (evs0 ++ evs). split_and!.
      + by rewrite app_assoc.
      + by apply Forall_app.
      + intros v Hv. destruct (Hseen v Hv) as (Htr & pre & last & -> & Hlast).
        split; [done|]. exists (evs0 ++ pre), last. by rewrite app_assoc. }
  destruct r0 as [v|e].
  - destruct (truthy v) eqn:Hv; [|by apply Hstop].
    inversion Hrun; subst. exists evs0. split_and!; [done|done|].
    intros v' Hv'. inversion Hv'; subst v'. split; [done|].
    exists [], evs0. split; [done|]. by apply Hseen0.
  - destruct (ignored e); [by apply Hstop|].
    inversion Hrun; subst. exists evs0. split_and!; [done|done|done].
Qed.


(** C5, as amended.  With a clock that runs forward, [wait_for_result]
    ends, and its result is settled by the first evaluation of the condition
    that does not ask for another poll: when that evaluation gives a true
    value, this value is returned, and every earlier evaluation gave a false
    value (or an ignored exception); a timeout is raised only when the last
    evaluation gave no true value and the deadline was over, no true value
    having been seen before; an exception of the condition that is not
    ignored ends the wait at once and comes out as it is. *)
Theorem wait_for_result_returns_first_truthy {V : Type} `{Truthy V}
    (self : BasePage) (condition : UI V) (timeout : Z) (st : State Env) :
  (BrowserLaws B -> monotone_condition B condition ->
   exists fuel, is_Some (wait_for_result B fuel self condition timeout st))
  /\ forall fuel r st',
      wait_for_result B fuel self condition timeout st = Some (r, st') ->
      let end_time := (clock B st + 1000 * timeout)%Z in
      exists k,
        (forall j, (j < k)%nat ->
           not_yet (poll B POLL_FREQUENCY condition j st).1 = true
           /\ (clock B (poll B POLL_FREQUENCY condition j st).2 <= end_time)%Z)
        /\ st' = (poll B POLL_FREQUENCY condition k st).2
        /\ settles B end_time (poll B POLL_FREQUENCY condition k st) r.
Proof.
  split.
  - intros Hlaws Hmono. by apply until_terminates.
  - intros fuel r st' Hrun end_time.
    destruct (until_loop_polls _ _ _ _ _ _ _ Hrun) as (k & _ & Hbefore & Hst & Hend).
    by exists k.
Qed.

(** C4, as amended.  With a clock that runs forward,
    [is_element_present] ends.  It returns [True] when a search finds the
    element, all earlier searches having found none before the deadline; it
    returns [False] when the wait ends in a timeout (no element found and
    the deadline over, or a [TimeoutException] of the driver); every other
    exception of the search comes out of [is_element_present] as it is. *)
Theorem is_element_present_converts_timeout
    (self : BasePage) (loc : Locator) (timeout : Z) (st : State Env) :
  (BrowserLaws B ->
   exists fuel, is_Some (is_element_present B fuel self loc timeout st))
  /\ forall fuel r st',
      is_element_present B fuel self loc timeout st = Some (r, st') ->
      let end_time := (clock B st + 1000 * timeout)%Z in
      let find := poll B POLL_FREQUENCY (presence_of_element_located B loc) in
      exists k,
        (forall j, (j < k)%nat ->
           (exists m, (find j st).1 = Raise (NoSuchElementException m))
           /\ (clock B (find j st).2 <= end_time)%Z)
        /\ st' = (find k st).2
        /\ match (find k st).1 with
           | Ok _ => r = Ok true
           | Raise (NoSuchElementException _) =>
               r = Ok false /\ (end_time < clock B st')%Z
           | Raise (TimeoutException _) => r = Ok false
           | Raise e => r = Raise e
           end.
Proof.
  split.
  - intros Hlaws.
    destruct (until_terminates timeout (presence_of_element_located B loc) st Hlaws
                (presence_monotone loc Hlaws)) as [fuel [[r st1] Hrun]].
    exists fuel. unfold is_element_present. rewrite Hrun.
    destruct r as [el|[]]; eauto.
  - intros fuel r st' Hrun end_time find.
    unfold is_element_present in Hrun.
    destruct (until B fuel _ _ st) as [[r0 st1]|] eqn:Hwait; [|done].
    destruct (until_loop_polls _ _ _ _ _ _ _ Hwait) as (k & _ & Hbefore & Hst & Hend).
    cbn [wd_poll wd_timeout WebDriverWait_new] in Hbefore, Hst, Hend.
    exists k. fold find in Hbefore, Hst, Hend. fold end_time in Hbefore, Hend.
    split_and!.
    + intros j Hj. destruct (Hbefore j Hj) as [Hny Hclock]. split; [|done].
      destruct (find j st).1 as [el|e]; [done|]. destruct e; try done. eauto.
    + destruct r0 as [el|[]]; inversion Hrun; congruence.
    + unfold settles in Hend. subst st1.
      destruct (find k st).1 as [el|e]; simpl in Hend.
      * subst r0. by inversion Hrun.
      * destruct e; simpl in Hend; try (subst r0; by inversion Hrun).
        destruct Hend as [-> Hlate]. by inversion Hrun; subst.
Qed.

Lemma click_waits (explicit_wait : Z) (loc : Locator) (st : State Env) :
  (BrowserLaws B ->
   exists fuel, is_Some (click B fuel (BasePage_init explicit_wait) loc st))
  /\ forall fuel r st',
      click B fuel (BasePage_init explicit_wait) loc st = Some (r, st') ->
      waited_then_acted (log st) (log st') r
        (fun el => [UFind loc (Ok el); UIsDisplayed el (Ok true);
                    UIsEnabled el (Ok true)])
        (fun el acts => acts = [UClick el r]).
Proof.
  split.
  - intros Hlaws.
    destruct (until_terminates explicit_wait (element_to_be_clickable B loc) st Hlaws
                (clickable_monotone loc Hlaws)) as [fuel [[r st1] Hrun]].
    exists fuel. unfold click, find_clickable. simpl. rewrite Hrun.
    destruct r as [[el|]|e]; eauto.
  - intros fuel r st' Hrun. unfold waited_then_acted, click, find_clickable in *.
    destruct (until B fuel _ _ st) as [[r0 st1]|] eqn:Hwait; [|done].
    destruct (until_loop_log _ _ _ _ _ (clickable_probing loc) _ _ _ Hwait)
      as (probes & Hlog & Hall & Hseen).
    destruct r0 as [v|e].
    + destruct (Hseen v eq_refl) as (Htr & pre & last & -> & el & -> & ->).
      unfold element_click in Hrun.
      destruct (el_click B el (env st1)) as [rc e1]. inversion Hrun; subst.
      simpl. exists (pre ++ [UFind loc (Ok el); UIsDisplayed el (Ok true);
                           UIsEnabled el (Ok true)]), [UClick el r].
      split_and!; [by rewrite Hlog, <- !app_assoc|done|]. right. eauto.
    + inversion Hrun; subst. exists probes, [].
      split_and!; [by rewrite app_nil_r|done|]. left. eauto.
Qed.

Lemma send_keys_waits (explicit_wait : Z) (loc : Locator) (keys : string)
    (st : State Env) :
  (BrowserLaws B ->
   exists fuel, is_Some (send_keys B fuel (BasePage_init explicit_wait) loc keys st))
  /\ forall fuel r st',
      send_keys B fuel (BasePage_init explicit_wait) loc keys st = Some (r, st') ->
      waited_then_acted (log st) (log st') r
        (fun el => [UFind loc (Ok el)])
        (fun el acts => (exists e, r = Raise e /\ acts = [UClear el (Raise e)])
           \/ acts = [UClear el (Ok tt); USendKeys el keys r]).
Proof.
  split.
  - intros Hlaws.
    destruct (until_terminates explicit_wait (presence_of_element_located B loc) st
                Hlaws (presence_monotone loc Hlaws)) as [fuel [[r st1] Hrun]].
    exists fuel. unfold send_keys, find_element. simpl. rewrite Hrun.
    destruct r as [el|e]; eauto.
  - intros fuel r st' Hrun. unfold waited_then_acted, send_keys, find_element in *.
    destruct (until B fuel _ _ st) as [[r0 st1]|] eqn:Hwait; [|done].
    destruct (until_loop_log _ _ _ _ _ (presence_probing loc) _ _ _ Hwait)
      as (probes & Hlog & Hall & Hseen).
    destruct r0 as [el|e].
    + destruct (Hseen el eq_refl) as (Htr & pre & last & -> & ->).
      unfold ui_bind, element_clear, element_send_keys in Hrun.
      destruct (el_clear B el (env st1)) as [[[]|ec] e1]; simpl in Hrun.
      * destruct (el_send_keys B el keys e1) as [rs e2]. inversion Hrun; subst.
        simpl. exists (pre ++ [UFind loc (Ok el)]),
                 [UClear el (Ok tt); USendKeys el keys r].
        split_and!; [by rewrite Hlog, <- !app_assoc|done|]. right. eauto.
      * inversion Hrun; subst. simpl.
        exists (pre ++ [UFind loc (Ok el)]), [UClear el (Raise ec)].
        split_and!; [by rewrite Hlog, <- !app_assoc|done|]. right.
        exists el, pre. split; [done|]. left. eauto.
    + inversion Hrun; subst. exists probes, [].
      split_and!; [by rewrite app_nil_r|done|]. left. eauto.
Qed.

Lemma get_text_waits (explicit_wait : Z) (loc : Locator) (st : State Env) :
  (BrowserLaws B ->
   exists fuel, is_Some (get_text B fuel (BasePage_init explicit_wait) loc st))
  /\ forall fuel r st',
      get_text B fuel (BasePage_init explicit_wait) loc st = Some (r, st') ->
      waited_then_acted (log st) (log st') r
        (fun el => [UFind loc (Ok el)])
        (fun el acts => acts = [UText el r]).
Proof.
  split.
  - intros Hlaws.
    destruct (until_terminates explicit_wait (presence_of_element_located B loc) st
                Hlaws (presence_monotone loc Hlaws)) as [fuel [[r st1] Hrun]].
    exists fuel. unfold get_text, find_element. simpl. rewrite Hrun.
    destruct r as [el|e]; eauto.
  - intros fuel r st' Hrun. unfold waited_then_acted, get_text, find_element in *.
    destruct (until B fuel _ _ st) as [[r0 st1]|] eqn:Hwait; [|done].
    destruct (until_loop_log _ _ _ _ _ (presence_probing loc) _ _ _ Hwait)
      as (probes & Hlog & Hall & Hseen).
    destruct r0 as [el|e].
    + destruct (Hseen el eq_refl) as (Htr & pre & last & -> & ->).
      unfold element_text in Hrun.
      destruct (el_text B el (env st1)) as [rt e1]. inversion Hrun; subst.
      simpl. exists (pre ++ [UFind loc (Ok el)]), [UText el r].
      split_and!; [by rewrite Hlog, <- !app_assoc|done|]. right. eauto.
    + inversion Hrun; subst. exists probes, [].
      split_and!; [by rewrite app_nil_r|done|]. left. eauto.
Qed.


(** A wait followed by an action on what it returned is a run of
    "wait, then act". *)
Lemma until_waits_then_acts {V A : Type} `{Truthy V} (w : WebDriverWait)
    (method : UI V) (act : V -> UI A) fuel st r0 st1 r st' :
  until B fuel w method st = Some (r0, st1) ->
  (r, st') = match r0 with
             | Ok v => act v st1
             | Raise e => (Raise e, st1)
             end ->
  waits_then_acts B w method act st r st'.
Proof.
  intros Hwait Hact.
  destruct (until_loop_polls _ _ _ _ _ _ _ Hwait) as (k & _ & Hbefore & Hst & Hend).
  exists k. split; [exact Hbefore|]. simpl. subst st1. unfold settles in Hend.
  destruct (poll B (wd_poll w) method k st).1 as [v|e].
  - destruct (truthy v).
    + by subst r0.
    + destruct Hend as [-> Hlate]. by inversion Hact.
  - destruct (ignored e).
    + destruct Hend as [-> Hlate]. by inversion Hact.
    + subst r0. by inversion Hact.
Qed.

Lemma click_steps (self : BasePage) (loc : Locator) (st : State Env) fuel r st' :
  click B fuel self loc st = Some (r, st') ->
  clicks B (wait self) loc st r st'.
Proof.
  intros Hrun. unfold click, find_clickable in Hrun.
  destruct (until B fuel _ _ st) as [[r0 st1]|] eqn:Hwait; [|done].
  apply (until_waits_then_acts _ _ _ _ _ _ _ _ _ Hwait).
  destruct r0 as [[el|]|e]; by inversion Hrun.
Qed.

Lemma send_keys_steps (self : BasePage) (loc : Locator) (keys : string)
    (st : State Env) fuel r st' :
  send_keys B fuel self loc keys st = Some (r, st') ->
  types B (wait self) loc keys st r st'.
Proof.
  intros Hrun. unfold send_keys, find_element in Hrun.
  destruct (until B fuel _ _ st) as [[r0 st1]|] eqn:Hwait; [|done].
  apply (until_waits_then_acts _ _ _ _ _ _ _ _ _ Hwait).
  destruct r0 as [el|e]; by inversion Hrun.
Qed.

Lemma get_text_steps (self : BasePage) (loc : Locator) (st : State Env) fuel r st' :
  get_text B fuel self loc st = Some (r, st') ->
  reads B (wait self) loc st r st'.
Proof.
  intros Hrun. unfold get_text, find_element in Hrun.
  destruct (until B fuel _ _ st) as [[r0 st1]|] eqn:Hwait; [|done].
  apply (until_waits_then_acts _ _ _ _ _ _ _ _ _ Hwait).
  destruct r0 as [el|e]; by inversion Hrun.
Qed.

(** C7. Each interactive action waits for its readiness condition and
    only then acts.  With a clock that runs forward each of them ends.
    Every run of [click] that ends is a run of "wait, then act": the
    condition [element_to_be_clickable] is polled until an evaluation
    settles the wait, every earlier evaluation having found the element
    missing, hidden or disabled before the deadline; when that evaluation
    gives the element, it is clicked in the state that the evaluation left,
    and the outcome of the click is that of the action; when it does not,
    nothing follows it, and the action raises what the wait raises (a
    timeout with the deadline over, or the error of the driver).  The same
    holds of [send_keys] and [get_text] with the condition
    [presence_of_element_located], followed by [clear] and [send_keys],
    and by [text].  On the browser the calls are, in this order: probes of
    the page; then, unless the wait has raised, the successful observation
    of the element (found, displayed and enabled for [click]; found for
    the other two) and the calls on that very element. *)
Theorem actions_wait_before_acting (explicit_wait : Z) (loc : Locator)
    (keys : string) (st : State Env) :
  let self := BasePage_init explicit_wait in
  (BrowserLaws B ->
   (exists fuel, is_Some (click B fuel self loc st))
   /\ (exists fuel, is_Some (send_keys B fuel self loc keys st))
   /\ (exists fuel, is_Some (get_text B fuel self loc st)))
  /\ (forall fuel r st',
        click B fuel self loc st = Some (r, st') ->
        waits_then_acts B (wait self) (element_to_be_clickable B loc)
          (click_found B) st r st'
        /\ waited_then_acted (log st) (log st') r
             (fun el => [UFind loc (Ok el); UIsDisplayed el (Ok true);
                         UIsEnabled el (Ok true)])
             (fun el acts => acts = [UClick el r]))
  /\ (forall fuel r st',
        send_keys B fuel self loc keys st = Some (r, st') ->
        waits_then_acts B (wait self) (presence_of_element_located B loc)
          (clear_and_type B keys) st r st'
        /\ waited_then_acted (log st) (log st') r
             (fun el => [UFind loc (Ok el)])
             (fun el acts =>
                (exists e, r = Raise e /\ acts = [UClear el (Raise e)])
                \/ acts = [UClear el (Ok tt); USendKeys el keys r]))
  /\ (forall fuel r st',
        get_text B fuel self loc st = Some (r, st') ->
        waits_then_acts B (wait self) (presence_of_element_located B loc)
          (element_text B) st r st'
        /\ waited_then_acted (log st) (log st') r
             (fun el => [UFind loc (Ok el)])
             (fun el acts => acts = [UText el r])).
Proof.
  intros self. subst self. split_and!.
  - intros Hlaws. split_and!.
    + by apply (click_waits explicit_wait loc st).
    + by apply (send_keys_waits explicit_wait loc keys st).
    + by apply (get_text_waits explicit_wait loc st).
  - intros fuel r st' Hrun. split.
    + exact (click_steps _ _ _ _ _ _ Hrun).
    + exact (proj2 (click_waits explicit_wait loc st) _ _ _ Hrun).
  - intros fuel r st' Hrun. split.
    + exact (send_keys_steps _ _ _ _ _ _ _ Hrun).
    + exact (proj2 (send_keys_waits explicit_wait loc keys st) _ _ _ Hrun).
  - intros fuel r st' Hrun. split.
    + exact (get_text_steps _ _ _ _ _ _ Hrun).
    + exact (proj2 (get_text_waits explicit_wait loc st) _ _ _ Hrun).
Qed.

End WaitFacts.

(** *** The wait engine on the test page *)

Lemma page_browser_laws : BrowserLaws page_browser.
Proof.
  constructor; intros; simpl; unfold tick; simpl; lia.
Qed.

Lemma page_condition_monotone : monotone_condition page_browser page_condition.
Proof.
  intros st. unfold clock, page_condition. simpl. lia.
Qed.

(** A condition that becomes true two seconds after the start is
    answered by the first poll after that moment. *)
Example wait_for_result_after_two_seconds :
  wait_for_result page_browser 20 page_object page_condition 5 (page0 2000 0 false)
  = Some (Ok (PStr "done"), mkState (mkPage 2050 2000 0 false) []).
Proof. vm_compute. reflexivity. Qed.

(** With a timeout that is over at once, one evaluation is made. *)
Example wait_for_result_without_time :
  wait_for_result page_browser 20 page_object page_condition (-3) (page0 2000 0 false)
  = Some (Raise (TimeoutException ""), mkState (mkPage 10 2000 0 false) []).
Proof. vm_compute. reflexivity. Qed.

(** The theorem on the test page, for a timeout of five seconds. *)
Lemma wait_for_result_witness :
  BrowserLaws page_browser
  /\ monotone_condition page_browser page_condition
  /\ (exists fuel,
        is_Some (wait_for_result page_browser fuel page_object page_condition 5
                   (page0 2000 0 false)))
  /\ exists k,
       settles page_browser 5000
         (poll page_browser POLL_FREQUENCY page_condition k (page0 2000 0 false))
         (Ok (PStr "done")).
Proof.
  pose proof (wait_for_result_returns_first_truthy page_browser page_object
                page_condition 5 (page0 2000 0 false)) as [Hends Hspec].
  split_and!; [exact page_browser_laws|exact page_condition_monotone| |].
  { exact (Hends page_browser_laws page_condition_monotone). }
  destruct (Hspec 20%nat _ _ wait_for_result_after_two_seconds)
    as (k & _ & _ & Hk).
  exists k. exact Hk.
Defined.

(** A condition that raises an error of the driver when it is first
    evaluated: the wait ends with that error, at once, although the deadline
    is five seconds away and the next evaluation would give a true value. *)
Lemma wait_for_result_raises_counterexample :
  ~ (forall (condition : UI (Env := Page) PyVal) (timeout : Z) fuel st r st',
       wait_for_result page_browser fuel page_object condition timeout st
       = Some (r, st') ->
       (exists v, r = Ok v /\ truthy v = true)
       \/ (exists msg, r = Raise (TimeoutException msg))).
Proof.
  intros H.
  destruct (H flaky_condition 5%Z 20%nat (page0 0 0 false)
              (Raise (WebDriverException "stale element reference"))
              (mkState (mkPage 10 0 0 false) []) eq_refl)
    as [(v & Hv & _)|(msg & Hmsg)]; [discriminate Hv|discriminate Hmsg].
Qed.

Example flaky_condition_next_evaluation :
  (poll page_browser POLL_FREQUENCY flaky_condition 1 (page0 0 0 false)).1
  = Ok (PStr "done").
Proof. vm_compute. reflexivity. Qed.

Example is_element_present_found :
  fst <$> is_element_present page_browser 20 page_object search_button 5
            (page0 600 1200 false)
  = Some (Ok true).
Proof. vm_compute. reflexivity. Qed.

Example is_element_present_timed_out :
  fst <$> is_element_present page_browser 20 page_object search_button 1
            (page0 60000 1200 false)
  = Some (Ok false).
Proof. vm_compute. reflexivity. Qed.

(** The theorem on the test page. *)
Lemma is_element_present_witness :
  BrowserLaws page_browser
  /\ exists fuel,
       is_Some (is_element_present page_browser fuel page_object search_button 5
                  (page0 600 1200 false)).
Proof.
  split; [exact page_browser_laws|].
  apply (is_element_present_converts_timeout page_browser page_object
           search_button 5 (page0 600 1200 false)). exact page_browser_laws.
Defined.

(** A driver that answers the search with an error of its own, as for a
    malformed selector: the error comes out of [is_element_present]. *)
Lemma is_element_present_raises_counterexample :
  ~ (forall (loc : Locator) (timeout : Z) fuel st r st',
       is_element_present page_browser fuel page_object loc timeout st
       = Some (r, st') ->
       exists b, r = Ok b).
Proof.
  intros H.
  destruct (H search_button 5%Z 1%nat (page0 0 0 true)
              (Raise (WebDriverException "invalid selector"))
              (mkState (mkPage 10 0 0 true)
                 [UFind search_button
                    (Raise (WebDriverException "invalid selector"))])
              eq_refl) as [b Hb].
  discriminate Hb.
Qed.

(** The button appears after 600 ms and is enabled after 1200 ms: it is
    clicked once, after the probe that saw it enabled. *)
Example click_after_enabled :
  click page_browser 10 page_object search_button (page0 600 1200 false)
  = Some (Ok tt,
          mkState (mkPage 1590 600 1200 false)
            [UFind search_button (Raise (NoSuchElementException "no such element"));
             UFind search_button (Raise (NoSuchElementException "no such element"));
             UFind search_button (Ok 7%Z);
             UIsDisplayed 7%Z (Ok true); UIsEnabled 7%Z (Ok false);
             UFind search_button (Ok 7%Z);
             UIsDisplayed 7%Z (Ok true); UIsEnabled 7%Z (Ok true);
             UClick 7%Z (Ok tt)]).
Proof. vm_compute. reflexivity. Qed.

(** A button that is never enabled is never clicked. *)
Example click_never_enabled :
  (fun run => (run.1, filter (fun ev => is_probe ev = false) (log run.2)))
    <$> click page_browser 30 page_object search_button (page0 600 120000 false)
  = Some (Raise (TimeoutException ""), []).
Proof. vm_compute. reflexivity. Qed.

Example send_keys_after_present :
  send_keys page_browser 10 page_object search_button "Sochi" (page0 600 1200 false)
  = Some (Ok tt,
          mkState (mkPage 1050 600 1200 false)
            [UFind search_button (Raise (NoSuchElementException "no such element"));
             UFind search_button (Raise (NoSuchElementException "no such element"));
             UFind search_button (Ok 7%Z);
             UClear 7%Z (Ok tt); USendKeys 7%Z "Sochi" (Ok tt)]).
Proof. vm_compute. reflexivity. Qed.

Example get_text_after_present :
  get_text page_browser 10 page_object search_button (page0 600 1200 false)
  = Some (Ok "Sochi",
          mkState (mkPage 1040 600 1200 false)
            [UFind search_button (Raise (NoSuchElementException "no such element"));
             UFind search_button (Raise (NoSuchElementException "no such element"));
             UFind search_button (Ok 7%Z);
             UText 7%Z (Ok "Sochi")]).
Proof. vm_compute. reflexivity. Qed.

(** A click that looked at the page once and gave up, the deadline not
    being over, would not be a run of "wait, then act". *)
Example click_gives_up_at_once_is_no_wait :
  ~ clicks page_browser (wait page_object) search_button (page0 600 1200 false)
      (Raise (TimeoutException ""))
      (mkState (mkPage 10 600 1200 false)
         [UFind search_button (Raise (NoSuchElementException "no such element"))]).
Proof.
  intros [k [Hbefore Hlast]].
  destruct k as [|[|[|[|k]]]].
  - vm_compute in Hlast. destruct Hlast as (_ & _ & Hlate). discriminate Hlate.
  - vm_compute in Hlast. destruct Hlast as (Hst & _). discriminate Hst.
  - vm_compute in Hlast. destruct Hlast as (_ & Hst & _). discriminate Hst.
  - vm_compute in Hlast. discriminate Hlast.
  - destruct (Hbefore 3%nat ltac:(lia)) as [Hny _].
    vm_compute in Hny. discriminate Hny.
Qed.

(** The theorem on the test page: the three actions end; the runs of the
    examples are runs of "wait, then act", and the click comes after the
    probe that saw the button enabled. *)
Lemma actions_wait_before_acting_witness :
  BrowserLaws page_browser
  /\ (exists fuel,
        is_Some (click page_browser fuel (BasePage_init 10) search_button
                   (page0 600 1200 false)))
  /\ (exists fuel,
        is_Some (send_keys page_browser fuel (BasePage_init 10) search_button
                   "Sochi" (page0 600 1200 false)))
  /\ (exists fuel,
        is_Some (get_text page_browser fuel (BasePage_init 10) search_button
                   (page0 600 1200 false)))
  /\ (exists st',
        click page_browser 10 (BasePage_init 10) search_button (page0 600 1200 false)
        = Some (Ok tt, st')
        /\ waits_then_acts page_browser (wait (BasePage_init 10))
             (element_to_be_clickable page_browser search_button)
             (click_found page_browser) (page0 600 1200 false) (Ok tt) st'
        /\ exists pre el,
             log st' = pre ++ [UFind search_button (Ok el);
                               UIsDisplayed el (Ok true); UIsEnabled el (Ok true);
                               UClick el (Ok tt)]
             /\ Forall (fun ev => is_probe ev = true) pre)
  /\ (exists st',
        send_keys page_browser 10 (BasePage_init 10) search_button "Sochi"
          (page0 600 1200 false) = Some (Ok tt, st')
        /\ waits_then_acts page_browser (wait (BasePage_init 10))
             (presence_of_element_located page_browser search_button)
             (clear_and_type page_browser "Sochi") (page0 600 1200 false)
             (Ok tt) st')
  /\ (exists st',
        get_text page_browser 10 (BasePage_init 10) search_button
          (page0 600 1200 false) = Some (Ok "Sochi", st')
        /\ waits_then_acts page_browser (wait (BasePage_init 10))
             (presence_of_element_located page_browser search_button)
             (element_text page_browser) (page0 600 1200 false)
             (Ok "Sochi") st').
Proof.
  pose proof (actions_wait_before_acting page_browser 10 search_button "Sochi"
                (page0 600 1200 false)) as (Hends & Hclick & Hkeys & Htext).
  destruct (Hends page_browser_laws) as (Hc & Hk & Ht).
  split_and!; [exact page_browser_laws|exact Hc|exact Hk|exact Ht| | |].
  - eexists. split; [exact click_after_enabled|].
    destruct (Hclick 10%nat _ _ click_after_enabled) as [Hsteps Hlog].
    split; [exact Hsteps|].
    destruct Hlog
      as (probes & acts & Hall & Hprobes & [(e & He & _)|(el & pre & -> & ->)]);
      [discriminate He|].
    exists pre, el. simpl in Hall. rewrite Hall.
    split; [by rewrite <- app_assoc|].
    by apply Forall_app in Hprobes as [Hpre _].
  - eexists. split; [exact send_keys_after_present|].
    exact (proj1 (Hkeys 10%nat _ _ send_keys_after_present)).
  - eexists. split; [exact get_text_after_present|].
    exact (proj1 (Htext 10%nat _ _ get_text_after_present)).
Defined.

(** * Further properties of the request client *)

Section ClientMore.
Context {Conn : Type}.
Variable send : Call -> Conn -> Res Response * Conn.
Variable default_headers : gmap string string.

Ltac step_send' self :=
  unfold session_request;
  let r := fresh "r" in
  let c' := fresh "c'" in
  let Hsend := fresh "Hsend" in
  destruct (send _ (conn (session self))) as [r c'] eqn:Hsend.

(** The shape of the trace of the loop, whatever the attempts left: the
    attempts, all but the last of which raised, and after them the two
    attachments of the answered attempt when the loop returns. *)
Lemma request_loop_trace (self : BaseApiClient Conn) method furl params jsn hdrs
    timeout retry todo :
  let '(r, _, evs) :=
    request_loop send self method furl params jsn hdrs timeout retry todo in
  (length (attempts evs) <= length todo)%nat
  /\ (forall i call o, attempts evs !! i = Some (call, o) ->
        (S i < length (attempts evs))%nat -> exists e, o = Raise e)
  /\ evs = ((fun a => EvRequest a.1 a.2) <$> attempts evs)
           ++ (EvAttach <$> attachments evs)
  /\ match r with
     | Ok resp =>
         attachments evs
         = [AttachRequest "Запрос" method furl params jsn hdrs;
            AttachResponse "Ответ" (status_code resp)
              (py_prefix 1000 (text resp))]
     | Raise x =>
         attachments evs = []
         /\ Forall (fun a => exists e, a.2 = Raise e) (attempts evs)
         /\ exists msg, x = AssertionError msg
     end.
Proof.
  revert self. induction todo as [|attempt todo IH]; intros self; simpl.
  - split_and!; eauto. intros i call o Hi. by destruct i.
  - step_send' self.
    destruct r as [response|e]; simpl.
    + split_and!.
      * lia.
      * intros [|i] call o Hi Hlt; simpl in *; lia.
      * done.
      * done.
    + destruct (attempt =? retry - 1)%Z; simpl.
      * split_and!.
        -- lia.
        -- intros [|i] call o Hi Hlt; simpl in *; lia.
        -- done.
        -- done.
        -- repeat constructor. simpl. eauto.
        -- eauto.
      * specialize (IH (mkClient (base_url self) (token self)
                          (mkSession (headers (session self)) c'))).
        destruct (request_loop _ _ _ _ _ _ _ _ _ todo) as [[r' self''] evs].
        simpl. destruct IH as (Hlen & Hpre & Hshape & Hres).
        split_and!.
        -- lia.
        -- intros [|i] call o Hi Hlt; simpl in *.
           ++ inversion Hi; subst. eauto.
           ++ apply (Hpre i call o Hi). lia.
        -- simpl. f_equal. exact Hshape.
        -- destruct r' as [resp|x]; [done|].
           destruct Hres as (Hatt & Hall & Hmsg). split_and!; [done| |done].
           constructor; [simpl; eauto|done].
Qed.

Lemma py_range_length retry : length (py_range retry) = Z.to_nat retry.
Proof. unfold py_range. by rewrite length_map, length_seq. Qed.

(** X1. [_request] never makes more attempts than its budget, and every
    attempt but the last one has raised: there is no attempt after an
    answer. *)
Theorem request_attempts_bounded
    (self : BaseApiClient Conn) (method url : string) (params jsn : option PyVal)
    (hdrs : option (gmap string string)) (timeout retry : Z) :
  let '(_, _, evs) := _request send self method url params jsn hdrs timeout retry in
  (length (attempts evs) <= Z.to_nat retry)%nat
  /\ (forall i call o, attempts evs !! i = Some (call, o) ->
        (S i < length (attempts evs))%nat -> exists e, o = Raise e).
Proof.
  unfold _request.
  pose proof (request_loop_trace self method (full_url self url) params jsn hdrs
                timeout retry (py_range retry)) as H.
  destruct (request_loop _ _ _ _ _ _ _ _ _ _) as [[r self'] evs].
  destruct H as (Hlen & Hpre & _). rewrite py_range_length in Hlen. by split.
Qed.


(** The attempts of a loop that raises: all those that were left, and the
    message names the exception of the last one. *)
Lemma request_loop_raises method furl params jsn hdrs timeout retry n :
  forall k (self : BaseApiClient Conn),
  (k + n)%nat = Z.to_nat retry ->
  let '(r, _, evs) :=
    request_loop send self method furl params jsn hdrs timeout retry
      (attempts_from k n) in
  forall x, r = Raise x ->
    length (attempts evs) = n
    /\ ((n = 0%nat /\ x = AssertionError "Не удалось выполнить запрос")
        \/ exists e call,
             last (attempts evs) = Some (call, Raise e)
             /\ x = AssertionError ("Запрос не выполнен после " +:+ str_int retry
                                    +:+ " попыток: " +:+ str_exn e)).
Proof.
  induction n as [|n IH]; intros k self Hk.
  - simpl. intros x Hx. inversion Hx; subst. split; [done|]. by left.
  - rewrite attempts_from_S. cbn [request_loop]. step_send' self.
    destruct r as [response|e]; [done|].
    destruct (Z.eqb_spec (Z.of_nat k) (retry - 1)) as [Hlast|Hmore].
    + intros x Hx. inversion Hx; subst. simpl.
      assert (n = 0%nat) as -> by lia. split; [done|]. right. eauto.
    + specialize (IH (S k) (mkClient (base_url self) (token self)
                            (mkSession (headers (session self)) c')) ltac:(lia)).
      destruct (request_loop _ _ _ _ _ _ _ _ _ _) as [[r' self''] evs].
      intros x Hx. destruct (IH x Hx) as [Hlen Hmsg]. simpl.
      split; [by rewrite Hlen|].
      destruct Hmsg as [[-> _]|(e' & call & Hl & ->)]; [lia|].
      right. exists e', call. split; [|done].
      destruct (attempts evs); [done|]. done.
Qed.

(** When the loop returns, the response is that of the last attempt. *)
Lemma request_loop_returns_last (self : BaseApiClient Conn) method furl params
    jsn hdrs timeout retry todo :
  let '(r, _, evs) :=
    request_loop send self method furl params jsn hdrs timeout retry todo in
  forall resp, r = Ok resp ->
    last (attempts evs)
    = Some (call_of self method furl params jsn hdrs timeout, Ok resp).
Proof.
  revert self. induction todo as [|attempt todo IH]; intros self; simpl; [done|].
  step_send' self. destruct r as [response|e]; simpl.
  - intros resp Hr. by inversion Hr.
  - destruct (attempt =? retry - 1)%Z; [done|].
    specialize (IH (mkClient (base_url self) (token self)
                      (mkSession (headers (session self)) c'))).
    destruct (request_loop _ _ _ _ _ _ _ _ _ todo) as [[r' self''] evs].
    intros resp Hr. specialize (IH resp Hr). simpl.
    destruct (attempts evs); [done|]. exact IH.
Qed.

(** X2. When [_request] raises, it raises an [AssertionError]; it has
    then made every attempt of its budget and each of them has raised.  The
    message is the fall-through one when the budget is zero or less, and
    otherwise names the budget and the exception of the last attempt. *)
Theorem request_raises_after_all_attempts
    (self : BaseApiClient Conn) (method url : string) (params jsn : option PyVal)
    (hdrs : option (gmap string string)) (timeout retry : Z) :
  let '(r, _, evs) := _request send self method url params jsn hdrs timeout retry in
  forall x, r = Raise x ->
    length (attempts evs) = Z.to_nat retry
    /\ Forall (fun a => exists e, a.2 = Raise e) (attempts evs)
    /\ (((retry <= 0)%Z /\ x = AssertionError "Не удалось выполнить запрос")
        \/ exists e call,
             last (attempts evs) = Some (call, Raise e)
             /\ x = AssertionError ("Запрос не выполнен после " +:+ str_int retry
                                    +:+ " попыток: " +:+ str_exn e)).
Proof.
  unfold _request.
  pose proof (request_loop_trace self method (full_url self url) params jsn hdrs
                timeout retry (py_range retry)) as Htrace.
  pose proof (request_loop_raises method (full_url self url) params jsn hdrs
                timeout retry (Z.to_nat retry) 0%nat self eq_refl) as Hraise.
  rewrite <- py_range_attempts in Hraise.
  destruct (request_loop _ _ _ _ _ _ _ _ _ _) as [[r self'] evs].
  intros x ->. destruct (Hraise x eq_refl) as [Hlen Hmsg].
  destruct Htrace as (_ & _ & _ & _ & Hall & _).
  split_and!; [done|done|].
  destruct Hmsg as [[Hz ->]|Hmsg]; [left; split; [lia|done]|by right].
Qed.

Lemma append_cons (c : Ascii.ascii) (s t : string) :
  String c s +:+ t = String c (s +:+ t).
Proof. reflexivity. Qed.

Lemma append_empty_l (t : string) : "" +:+ t = t.
Proof. reflexivity. Qed.

(** [s[:n]] is the only way to cut [s] after its first [n] characters: it
    is followed in [s] by a rest that begins a character, and it holds [n]
    characters, or all of them when [s] has fewer. *)
Lemma py_prefix_spec (n : nat) (s : string) :
  exists rest,
    s = py_prefix n s +:+ rest
    /\ py_len (py_prefix n s) = Nat.min n (py_len s)
    /\ match rest with
       | EmptyString => True
       | String c _ => is_continuation c = false
       end.
Proof.
  revert n. induction s as [|c s IH]; intros n.
  - exists EmptyString. cbn. split_and!; [done|lia|done].
  - cbn [py_prefix py_len]. destruct (is_continuation c) eqn:Hc.
    + destruct (IH n) as (rest & Hs & Hlen & Hrest). exists rest.
      rewrite append_cons. cbn [py_len]. rewrite Hc.
      split_and!; [by rewrite <- Hs|done|done].
    + destruct n as [|n].
      * exists (String c s). rewrite append_empty_l. cbn [py_len].
        split_and!; [done|lia|done].
      * destruct (IH n) as (rest & Hs & Hlen & Hrest). exists rest.
        rewrite append_cons. cbn [py_len]. rewrite Hc.
        split_and!; [by rewrite <- Hs|lia|done].
Qed.

(** X3. The trace of [_request] is its attempts followed by its
    attachments.  When the call returns there are two attachments, made
    after the answered attempt: the request, and the response with its
    status and the first thousand characters of its body, [text[:1000]]:
    the text is that body followed by a rest, the body holds a thousand
    characters (all of them when the text has fewer) and the rest begins a
    character.  When the call raises there is no attachment: a failed
    attempt is not reported. *)
Theorem request_attaches_answered_attempt_only
    (self : BaseApiClient Conn) (method url : string) (params jsn : option PyVal)
    (hdrs : option (gmap string string)) (timeout retry : Z) :
  let '(r, _, evs) := _request send self method url params jsn hdrs timeout retry in
  evs = ((fun a => EvRequest a.1 a.2) <$> attempts evs)
        ++ (EvAttach <$> attachments evs)
  /\ match r with
     | Ok resp =>
         exists body rest,
           attachments evs
           = [AttachRequest "Запрос" method (full_url self url) params jsn hdrs;
              AttachResponse "Ответ" (status_code resp) body]
           /\ body = py_prefix 1000 (text resp)
           /\ text resp = body +:+ rest
           /\ py_len body = Nat.min 1000 (py_len (text resp))
           /\ match rest with
              | EmptyString => True
              | String c _ => is_continuation c = false
              end
     | Raise _ => attachments evs = []
     end.
Proof.
  unfold _request.
  pose proof (request_loop_trace self method (full_url self url) params jsn hdrs
                timeout retry (py_range retry)) as Htrace.
  destruct (request_loop _ _ _ _ _ _ _ _ _ _) as [[r self'] evs].
  destruct Htrace as (_ & _ & Hshape & Hres). split; [done|].
  destruct r as [resp|x]; [|by destruct Hres].
  destruct (py_prefix_spec 1000 (text resp)) as (rest & Hs & Hlen & Hrest).
  exists (py_prefix 1000 (text resp)), rest. by split_and!.
Qed.

Lemma substring_head (s q : string) :
  String.substring 0 (String.length s) (s +:+ q) = s.
Proof.
  induction s as [|c s IH].
  - rewrite append_empty_l. by destruct q.
  - rewrite append_cons. simpl. by rewrite IH.
Qed.

Lemma substring_infix (p s q : string) :
  String.substring (String.length p) (String.length s) (p +:+ s +:+ q) = s.
Proof.
  induction p as [|c p IH].
  - rewrite append_empty_l. apply substring_head.
  - rewrite append_cons. simpl. exact IH.
Qed.

(** [s in p + s + q] *)
Lemma contains_infix (p s q : string) : contains s (p +:+ s +:+ q) = true.
Proof.
  unfold contains. destruct (String.index 0 s (p +:+ s +:+ q)) eqn:Hi; [done|].
  exfalso. destruct s as [|c s].
  - apply index_correct4 in Hi. lia.
  - apply (index_correct3 0 (String.length p) _ _ Hi); [done|lia|].
    apply substring_infix.
Qed.

Lemma append_empty_r (s : string) : s +:+ "" = s.
Proof.
  induction s as [|c s IH]; [done|]. by rewrite append_cons, IH.
Qed.

Lemma append_assoc (a b c : string) : a +:+ (b +:+ c) = (a +:+ b) +:+ c.
Proof.
  induction a as [|x a IH]; [done|]. by rewrite !append_cons, IH.
Qed.

Lemma contains_suffix (p s : string) : contains s (p +:+ s) = true.
Proof.
  rewrite <- (append_empty_r s) at 2. apply contains_infix.
Qed.

Lemma request_ok_contract (self : BaseApiClient Conn) method url params jsn :
  let '(r, _, evs) := request_ok send self method url params jsn in
  endpoint_contract r evs.
Proof.
  unfold request_ok, _request.
  pose proof (request_loop_response send self method (full_url self url) params jsn
                None Config.TIMEOUT Config.RETRY_COUNT
                (py_range Config.RETRY_COUNT)) as Hresp.
  pose proof (request_loop_returns_last self method (full_url self url) params jsn
                None Config.TIMEOUT Config.RETRY_COUNT
                (py_range Config.RETRY_COUNT)) as Hlast.
  pose proof (request_loop_trace self method (full_url self url) params jsn
                None Config.TIMEOUT Config.RETRY_COUNT
                (py_range Config.RETRY_COUNT)) as Htrace.
  destruct (request_loop _ _ _ _ _ _ _ _ _ _) as [[r self'] evs].
  destruct Htrace as (_ & _ & _ & Hres).
  unfold endpoint_contract. split_and!.
  - intros v Hv. destruct r as [resp|x]; [|done]. simpl in Hv.
    unfold wait_for_ok in Hv.
    destruct (Z.eqb_spec (status_code resp) 200) as [H200|]; [|done].
    eexists _, resp. split_and!; [by apply Hlast|done|done].
  - intros i call resp Hi Hcode. destruct (Hresp i call resp Hi) as [-> Hlen].
    split; [done|]. simpl. unfold wait_for_ok.
    destruct (Z.eqb_spec (status_code resp) 200) as [|_]; [done|].
    eexists. split; [reflexivity|]. split.
    + apply contains_infix.
    + rewrite !append_assoc. apply contains_suffix.
  - intros x Hx. destruct r as [resp|y]; simpl in Hx.
    + unfold wait_for_ok in Hx.
      destruct (Z.eqb_spec (status_code resp) 200) as [H200|].
      * right. eexists _, resp. split_and!; [by apply Hlast|done|done].
      * left. inversion Hx. eauto.
    + inversion Hx; subst. left. by destruct Hres as (_ & _ & Hmsg).
Qed.


(** The attempts of an endpoint method: at most three, all with the same
    call, which goes to the base URL itself. *)
Lemma request_ok_attempts (self : BaseApiClient Conn) method params jsn :
  let '(_, _, evs) := request_ok send self method "" params jsn in
  (length (attempts evs) <= 3)%nat
  /\ Forall (fun a => a.1 = mkCall method (base_url self) params jsn None 30
                              (headers (session self)))
       (attempts evs).
Proof.
  unfold request_ok, _request.
  pose proof (request_loop_calls send self method (full_url self "") params jsn
                None Config.TIMEOUT Config.RETRY_COUNT
                (py_range Config.RETRY_COUNT)) as Hcalls.
  pose proof (request_loop_trace self method (full_url self "") params jsn
                None Config.TIMEOUT Config.RETRY_COUNT
                (py_range Config.RETRY_COUNT)) as Htrace.
  destruct (request_loop _ _ _ _ _ _ _ _ _ _) as [[r self'] evs].
  destruct Hcalls as (Hcalls & _). destruct Htrace as (Hlen & _).
  split; [exact Hlen|].
  eapply Forall_impl; [exact Hcalls|]. intros [call o] ->. simpl.
  unfold call_of, full_url. simpl. by rewrite append_empty_r.
Qed.

(** X4. The endpoint methods [search_flights], [search_places_post] and
    [search_places_get] return a value only when the last attempt was
    answered with status 200 and the body decoded to that value.  An answer
    with another status ends the attempts and makes the method raise an
    [AssertionError] whose message contains the status code and the body.
    What they raise is an [AssertionError] or what [response.json()] has
    raised on a 200 answer. *)
Theorem endpoints_return_decoded_200_only (self : BaseApiClient Conn)
    (origin destination depart_date : string) (return_date : option string)
    (trip_class adults children infants : Z) (term locale : string)
    (types : list string) :
  (let '(r, _, evs) :=
     search_flights send self origin destination depart_date return_date
       trip_class adults children infants in
   endpoint_contract r evs)
  /\ (let '(r, _, evs) := search_places_post send self term locale types in
      endpoint_contract r evs)
  /\ (let '(r, _, evs) := search_places_get send self term locale types in
      endpoint_contract r evs).
Proof.
  split_and!.
  - unfold search_flights. apply request_ok_contract.
  - unfold search_places_post. apply request_ok_contract.
  - unfold search_places_get. apply request_ok_contract.
Qed.

(** X5. Every attempt of [search_flights] is a POST to the base URL of
    the client, without query parameters and without headers of its own,
    and there are at most three.  The JSON body holds no [None] value: the
    key [return_date] is left out when no return date is given, and the
    other seven keys are there with the values of the arguments. *)
Theorem search_flights_sends_no_null (self : BaseApiClient Conn)
    (origin destination depart_date : string) (return_date : option string)
    (trip_class adults children infants : Z) :
  let '(_, _, evs) :=
    search_flights send self origin destination depart_date return_date
      trip_class adults children infants in
  (length (attempts evs) <= 3)%nat
  /\ Forall (fun a =>
       c_method a.1 = "POST" /\ c_url a.1 = base_url self
       /\ c_params a.1 = None /\ c_headers a.1 = None
       /\ exists d,
            c_json a.1 = Some (PDict d)
            /\ Forall (fun kv => kv.2 <> PNone) d
            /\ d.*1 = ["origin"; "destination"; "depart_date"]
                      ++ match return_date with
                         | Some _ => ["return_date"]
                         | None => []
                         end
                      ++ ["trip_class"; "adults"; "children"; "infants"]
            /\ assoc_get "origin" d = PStr origin
            /\ assoc_get "destination" d = PStr destination
            /\ assoc_get "depart_date" d = PStr depart_date
            /\ assoc_get "return_date" d
               = match return_date with Some x => PStr x | None => PNone end
            /\ assoc_get "trip_class" d = PInt trip_class
            /\ assoc_get "adults" d = PInt adults
            /\ assoc_get "children" d = PInt children
            /\ assoc_get "infants" d = PInt infants)
       (attempts evs).
Proof.
  unfold search_flights.
  match goal with |- context [request_ok send self ?m "" ?p ?j] =>
    pose proof (request_ok_attempts self m p j) as H;
    destruct (request_ok send self m "" p j) as [[r self'] evs] end.
  destruct H as [Hlen Hcalls]. split; [exact Hlen|].
  eapply Forall_impl; [exact Hcalls|]. intros [call o] ->. simpl.
  split_and!; try done.
  destruct return_date as [d|]; simpl; eexists; (split; [reflexivity|]);
    split_and!; try done; repeat constructor; done.
Qed.

(** X7. [search_places_post] and [search_places_get] make at most
    three attempts, all to the base URL of the client, with the term, the
    locale and the types in the query string and no JSON body; the two
    differ in the HTTP method only. *)
Theorem search_places_sends_query (self : BaseApiClient Conn)
    (term locale : string) (types : list string) :
  let query :=
    PDict [("term", PStr term); ("locale", PStr locale);
           ("types[]", PList (PStr <$> types))] in
  (let '(_, _, evs) := search_places_post send self term locale types in
   (length (attempts evs) <= 3)%nat
   /\ Forall (fun a => a.1 = mkCall "POST" (base_url self) (Some query) None None
                               30 (headers (session self)))
        (attempts evs))
  /\ (let '(_, _, evs) := search_places_get send self term locale types in
      (length (attempts evs) <= 3)%nat
      /\ Forall (fun a => a.1 = mkCall "GET" (base_url self) (Some query) None None
                                  30 (headers (session self)))
           (attempts evs)).
Proof.
  intros query. split.
  - unfold search_places_post. apply request_ok_attempts.
  - unfold search_places_get. apply request_ok_attempts.
Qed.

End ClientMore.

Lemma assoc_get_missing (key : string) (d : list (string * PyVal)) :
  key ∉ d.*1 -> assoc_get key d = PNone.
Proof.
  induction d as [|[k v] d IH]; simpl; [done|]. intros Hnot.
  apply not_elem_of_cons in Hnot as [Hne Hnot].
  destruct (String.eqb_spec k key); [congruence|]. by apply IH.
Qed.

(** X6. The dict comprehension of [search_flights] that drops the
    [None] values leaves no [None] value, and on a dict (an association
    list without repeated key) it changes no [get]: a key that is dropped
    reads [None] before and after. *)
Theorem drop_none_keeps_lookups (d : list (string * PyVal)) :
  Forall (fun kv => kv.2 <> PNone) (drop_none d)
  /\ (NoDup d.*1 -> forall key, assoc_get key (drop_none d) = assoc_get key d).
Proof.
  split.
  - unfold drop_none. induction d as [|[k v] d IH]; simpl; [done|].
    destruct v; simpl; try (constructor; [done|exact IH]). exact IH.
  - unfold drop_none. induction d as [|[k v] d IH]; simpl; [done|].
    intros Hnd key. apply NoDup_cons in Hnd as [Hk Hnd].
    specialize (IH Hnd key).
    destruct (String.eqb_spec k key) as [->|Hne].
    + destruct v; simpl; rewrite ?String.eqb_refl; try reflexivity.
      rewrite IH. by apply assoc_get_missing.
    + destruct v; simpl; by destruct (String.eqb_spec k key).
Qed.

(** * Further properties of the extraction of names and codes *)

Lemma extract_iata_codes_loop_objects items :
  Forall (fun item => is_object item = true) items ->
  forall codes,
  extract_iata_codes_loop items codes = Ok (codes ++ omap iata_code_of items).
Proof.
  induction 1 as [|item items Hobj _ IH]; intros codes; simpl.
  - by rewrite app_nil_r.
  - destruct item as [| | | | |d]; try done. simpl.
    destruct (py_eq_str (assoc_get "type" d) "airport"); simpl; [|apply IH].
    destruct (truthy (assoc_get "code" d)); simpl; [|apply IH].
    rewrite IH. by rewrite <- app_assoc.
Qed.

Lemma extract_iata_codes_loop_other items :
  Exists (fun item => is_object item = false) items ->
  forall codes,
  exists msg, extract_iata_codes_loop items codes = Raise (AttributeError msg).
Proof.
  induction 1 as [item items Hobj|item items _ IH]; intros codes.
  - destruct item; try done; simpl; eauto.
  - simpl. destruct item as [| | | | |d]; simpl; eauto.
    destruct (py_eq_str (assoc_get "type" d) "airport"); simpl; [|apply IH].
    destruct (truthy (assoc_get "code" d)); simpl; apply IH.
Qed.

(** X8. On a list of objects [extract_iata_codes] returns, in the order
    of the items and with repetitions, the [code] of each item of type
    [airport] whose code is true.  On a list with an item that is not an
    object it raises an [AttributeError]. *)
Theorem extract_iata_codes_in_order (items : list PyVal) :
  (Forall (fun item => is_object item = true) items ->
   extract_iata_codes (PList items) = Ok (omap iata_code_of items))
  /\ (Exists (fun item => is_object item = false) items ->
      exists msg, extract_iata_codes (PList items) = Raise (AttributeError msg)).
Proof.
  unfold extract_iata_codes. cbn [py_iter mbind Res_bind]. split.
  - intros Hobj. by rewrite extract_iata_codes_loop_objects.
  - intros Hother. by apply extract_iata_codes_loop_other.
Qed.

(** A loop that returns has met well-formed items only. *)
Lemma extract_loop_returns items :
  forall cities cities',
  extract_loop items cities = Ok cities' ->
  Forall well_formed_item items.
Proof.
  induction items as [|item items IH]; intros cities cities' Hrun; [done|].
  cbn [extract_loop] in Hrun.
  destruct item as [| | | | |d]; try done.
  cbn [py_get mbind Res_bind] in Hrun.
  assert (Hsel : (if truthy (assoc_get "name" d) then Ok (assoc_get "name" d)
                  else Ok (assoc_get "city_name" d))
                 = Ok (A := PyVal) (city_name_of d)).
  { unfold city_name_of. by destruct (truthy _). }
  destruct (py_eq_str (assoc_get "type" d) "city") eqn:Hty.
  - rewrite Hsel in Hrun. cbn [mbind Res_bind] in Hrun.
    destruct (truthy (city_name_of d)) eqn:Htr.
    + unfold set_add in Hrun.
      destruct (py_key (city_name_of d)) as [k|] eqn:Hk; [|done].
      constructor.
      * exists d. split; [done|]. intros _. by rewrite Hk.
      * destruct (existsb _ cities); cbn [mbind Res_bind] in Hrun; eauto.
    + constructor; [|eauto]. exists d. split; [done|].
      unfold contributes. rewrite Htr. by rewrite andb_false_r.
  - constructor; [|eauto]. exists d. split; [done|].
    unfold contributes, is_city. by rewrite Hty.
Qed.

(** X9. On a list, [extract_city_names] returns a list exactly when
    every item is well formed: an object, whose selected name is hashable
    when the item is a city with a true name. *)
Theorem extract_city_names_returns_iff_well_formed (items : list PyVal) :
  (exists cities, extract_city_names (PList items) = Ok cities)
  <-> Forall well_formed_item items.
Proof.
  unfold extract_city_names. cbn [py_iter mbind Res_bind]. split.
  - intros [cities Hrun]. by eapply extract_loop_returns.
  - intros Hwf.
    destruct (extract_loop_spec items Hwf [] (NoDup_nil_2 (A := option HKey)))
      as (cities & Hrun & _).
    by exists cities.
Qed.

Lemma extract_loop_app items1 items2 :
  forall cities,
  extract_loop (items1 ++ items2) cities
  = extract_loop items1 cities ≫= extract_loop items2.
Proof.
  induction items1 as [|item items1 IH]; intros cities; [done|].
  cbn [app extract_loop].
  destruct (py_get item "type") as [ty|e]; cbn [mbind Res_bind]; [|done].
  destruct (py_eq_str ty "city"); [|apply IH].
  destruct (py_get item "name") as [name|e]; cbn [mbind Res_bind]; [|done].
  destruct (if truthy name then Ok name else py_get item "city_name")
    as [city_name|e]; cbn [mbind Res_bind]; [|done].
  destruct (truthy city_name); [|apply IH].
  destruct (set_add city_name cities) as [cities'|e]; cbn [mbind Res_bind]; [|done].
  apply IH.
Qed.

Lemma set_add_grows v s s' :
  set_add v s = Ok s' ->
  (forall u, u ∈ s -> u ∈ s')
  /\ exists w, w ∈ s' /\ py_key w = py_key v /\ is_Some (py_key v).
Proof.
  unfold set_add. destruct (py_key v) as [k|] eqn:Hk; [|done].
  destruct (existsb _ s) eqn:Hex; intros Hs; inversion Hs; subst.
  - split; [done|]. apply existsb_exists in Hex as (u & Hin & Hu).
    apply bool_decide_eq_true in Hu. exists u.
    split; [by apply list_elem_of_In|]. split; [congruence|eauto].
  - split.
    + intros u Hu. apply elem_of_app. by left.
    + exists v. split; [apply elem_of_app; right; by left|]. split; [done|eauto].
Qed.

Lemma set_add_present v s :
  (exists w, w ∈ s /\ py_key w = py_key v /\ is_Some (py_key v)) ->
  set_add v s = Ok s.
Proof.
  intros (w & Hin & Hkey & [k Hk]). unfold set_add. rewrite Hk.
  assert (existsb (fun u => bool_decide (py_key u = Some k)) s = true) as ->; [|done].
  apply existsb_exists. exists w. split; [by apply list_elem_of_In|].
  apply bool_decide_eq_true. congruence.
Qed.

Lemma extract_loop_grows items :
  forall cities cities',
  extract_loop items cities = Ok cities' ->
  forall u, u ∈ cities -> u ∈ cities'.
Proof.
  induction items as [|item items IH]; intros cities cities' Hrun.
  - by inversion Hrun.
  - cbn [extract_loop] in Hrun.
    destruct (py_get item "type") as [ty|e]; cbn [mbind Res_bind] in Hrun; [|done].
    destruct (py_eq_str ty "city"); [|by eapply IH].
    destruct (py_get item "name") as [name|e]; cbn [mbind Res_bind] in Hrun; [|done].
    destruct (if truthy name then Ok name else py_get item "city_name")
      as [city_name|e]; cbn [mbind Res_bind] in Hrun; [|done].
    destruct (truthy city_name); [|by eapply IH].
    destruct (set_add city_name cities) as [cities1|e] eqn:Hadd;
      cbn [mbind Res_bind] in Hrun; [|done].
    intros u Hu. apply (IH _ _ Hrun). by apply (set_add_grows _ _ _ Hadd).
Qed.

(** A set that holds, up to equality, every name of a finished run is
    left as it is by the same items. *)
Lemma extract_loop_absorbs items :
  forall cities cities',
  extract_loop items cities = Ok cities' ->
  forall s,
  (forall u, u ∈ cities' -> exists w, w ∈ s /\ py_key w = py_key u) ->
  extract_loop items s = Ok s.
Proof.
  induction items as [|item items IH]; intros cities cities' Hrun s Hcov; [done|].
  cbn [extract_loop] in Hrun |- *.
  destruct (py_get item "type") as [ty|e]; cbn [mbind Res_bind] in Hrun |- *; [|done].
  destruct (py_eq_str ty "city"); [|by eapply IH].
  destruct (py_get item "name") as [name|e]; cbn [mbind Res_bind] in Hrun |- *; [|done].
  destruct (if truthy name then Ok name else py_get item "city_name")
    as [city_name|e]; cbn [mbind Res_bind] in Hrun |- *; [|done].
  destruct (truthy city_name); [|by eapply IH].
  destruct (set_add city_name cities) as [cities1|e] eqn:Hadd;
    cbn [mbind Res_bind] in Hrun; [|done].
  destruct (set_add_grows _ _ _ Hadd) as (_ & w & Hw & Hkey & Hsome).
  destruct (Hcov w (extract_loop_grows _ _ _ Hrun w Hw)) as (w' & Hw' & Hkey').
  rewrite set_add_present; [|exists w'; split_and!; [done|congruence|done]].
  cbn [mbind Res_bind]. by eapply IH.
Qed.

(** X10. Items that are repeated add nothing: on the items given
    twice, [extract_city_names] gives what it gives on the items, be it a
    list or an exception. *)
Theorem extract_city_names_repeated_items (items : list PyVal) :
  extract_city_names (PList (items ++ items)) = extract_city_names (PList items).
Proof.
  unfold extract_city_names. cbn [py_iter mbind Res_bind].
  rewrite extract_loop_app.
  destruct (extract_loop items []) as [cities|e] eqn:Hrun; cbn [mbind Res_bind]; [|done].
  apply (extract_loop_absorbs _ _ _ Hrun). eauto.
Qed.

(** * Further properties of the wait engine *)

Section WaitMore.
Context {Env : Type}.
Variable B : Browser Env.

Lemma until_loop_fuel_le {V : Type} `{Truthy V} (end_time ms : Z)
    (method : UI V) n m st x :
  (n <= m)%nat ->
  until_loop B n end_time ms method st = Some x ->
  until_loop B m end_time ms method st = Some x.
Proof.
  induction 1 as [|m Hle IH]; [done|]. intros Hrun.
  apply until_loop_more_fuel. by apply IH.
Qed.

(** X11. What the waits of [BasePage] add to the log are probes of the
    page only.  When [find_element] returns an element, the last probe is
    the search that found it; when [find_clickable] returns, it returns an
    element, never [False], and the last probes found that element,
    displayed and enabled. *)
Theorem waits_return_observed_elements (self : BasePage) (loc : Locator)
    (st : State Env) :
  (forall fuel r st',
     find_element B fuel self loc st = Some (r, st') ->
     exists probes,
       log st' = log st ++ probes
       /\ Forall (fun ev => is_probe ev = true) probes
       /\ forall el, r = Ok el ->
            exists pre, probes = pre ++ [UFind loc (Ok el)])
  /\ (forall fuel r st',
        find_clickable B fuel self loc st = Some (r, st') ->
        exists probes,
          log st' = log st ++ probes
          /\ Forall (fun ev => is_probe ev = true) probes
          /\ forall v, r = Ok v ->
               exists el pre,
                 v = Some el
                 /\ probes = pre ++ [UFind loc (Ok el); UIsDisplayed el (Ok true);
                                     UIsEnabled el (Ok true)]).
Proof.
  split; intros fuel r st' Hrun.
  - destruct (until_loop_log B _ _ _ _ _ (presence_probing B loc) _ _ _ Hrun)
      as (probes & Hlog & Hall & Hseen).
    exists probes. split_and!; [done|done|].
    intros el ->. destruct (Hseen el eq_refl) as (_ & pre & last & -> & ->). eauto.
  - destruct (until_loop_log B _ _ _ _ _ (clickable_probing B loc) _ _ _ Hrun)
      as (probes & Hlog & Hall & Hseen).
    exists probes. split_and!; [done|done|].
    intros v ->. destruct (Hseen v eq_refl) as (_ & pre & last & -> & el & -> & ->).
    eauto.
Qed.

(** X12. When the first evaluation of the condition ends after the
    deadline (as with a timeout of zero or less and a condition that takes
    time), [wait_for_result] evaluates the condition once and does not
    sleep: it returns the value when it is true and raises otherwise. *)
Theorem wait_for_result_past_deadline {V : Type} `{Truthy V}
    (self : BasePage) (condition : UI V) (timeout : Z) (st : State Env)
    (fuel : nat) :
  (clock B st + 1000 * timeout < clock B (condition st).2)%Z ->
  wait_for_result B (S fuel) self condition timeout st
  = Some (match (condition st).1 with
          | Ok v => if truthy v then Ok v else Raise (TimeoutException "")
          | Raise e => if ignored e then Raise (TimeoutException "") else Raise e
          end, (condition st).2).
Proof.
  intros Hlate. unfold wait_for_result, until. cbn [until_loop].
  destruct (condition st) as [r st1]. simpl in *.
  destruct (Z.ltb_spec (clock B st + 1000 * timeout) (clock B st1)); [|lia].
  destruct r as [v|e]; [by destruct (truthy v)|by destruct (ignored e)].
Qed.

Lemma poll_state_clock {V : Type} (ms : Z) (method : UI V) :
  (forall e, (monotonic B e + ms <= monotonic B (sleep B ms e))%Z) ->
  monotone_condition B method ->
  forall j st,
  (clock B st + Z.of_nat j * ms <= clock B (poll_state B ms method j st))%Z.
Proof.
  intros Hsleep Hmono. induction j as [|j IH]; intros st; [simpl; lia|].
  cbn [poll_state]. specialize (IH (do_sleep B ms (method st).2)).
  pose proof (Hmono st) as Hst. unfold clock, do_sleep in *. simpl in *.
  specialize (Hsleep (env (method st).2)). lia.
Qed.

(** X13. With a clock that runs forward and a timeout of [t >= 0]
    seconds, a finished [wait_for_result] has evaluated its condition at
    most [2 t + 2] times. *)
Theorem wait_for_result_polls_bounded {V : Type} `{Truthy V}
    (self : BasePage) (condition : UI V) (timeout : Z) (st : State Env) :
  BrowserLaws B ->
  monotone_condition B condition ->
  (0 <= timeout)%Z ->
  forall fuel r st',
  wait_for_result B fuel self condition timeout st = Some (r, st') ->
  exists k,
    (Z.of_nat k <= 2 * timeout + 1)%Z
    /\ (forall j, (j < k)%nat ->
          not_yet (poll B POLL_FREQUENCY condition j st).1 = true)
    /\ st' = (poll B POLL_FREQUENCY condition k st).2
    /\ settles B (clock B st + 1000 * timeout)
         (poll B POLL_FREQUENCY condition k st) r.
Proof.
  intros Hlaws Hmono Htime fuel r st' Hrun.
  change (until B fuel (WebDriverWait_new timeout) condition st = Some (r, st'))
    in Hrun.
  destruct (until_loop_polls B _ _ _ _ _ _ _ Hrun)
    as (k & Hk & Hbefore & Hst & Hend).
  cbn [wd_poll wd_timeout WebDriverWait_new] in *.
  exists k. split_and!; [|by intros j Hj; apply Hbefore|done|done].
  destruct k as [|j]; [lia|].
  destruct (Hbefore j ltac:(lia)) as [_ Hclock].
  pose proof (poll_state_clock POLL_FREQUENCY condition
                (sleep_advances B Hlaws POLL_FREQUENCY) Hmono j st) as Hgrow.
  pose proof (Hmono (poll_state B POLL_FREQUENCY condition j st)) as Hlast.
  unfold poll in Hclock. unfold POLL_FREQUENCY in *. lia.
Qed.

(** The actions wait: more fuel does not change their result. *)
Lemma click_fuel_le (self : BasePage) loc st n m x :
  (n <= m)%nat ->
  click B n self loc st = Some x -> click B m self loc st = Some x.
Proof.
  intros Hle. unfold click, find_clickable, until.
  destruct (until_loop B n _ _ _ st) as [y|] eqn:Hn; [|done].
  by rewrite (until_loop_fuel_le _ _ _ n m st y Hle Hn).
Qed.

Lemma find_element_fuel_le (self : BasePage) loc st n m x :
  (n <= m)%nat ->
  find_element B n self loc st = Some x -> find_element B m self loc st = Some x.
Proof.
  intros Hle. unfold find_element, until. by apply until_loop_fuel_le.
Qed.

Lemma send_keys_fuel_le (self : BasePage) loc keys st n m x :
  (n <= m)%nat ->
  send_keys B n self loc keys st = Some x -> send_keys B m self loc keys st = Some x.
Proof.
  intros Hle. unfold send_keys.
  destruct (find_element B n self loc st) as [y|] eqn:Hn; [|done].
  by rewrite (find_element_fuel_le _ _ _ n m y Hle Hn).
Qed.

(** X14. [is_search_button_enabled] never raises and never acts on the
    page: with a clock that runs forward it ends, its result is a boolean
    and it adds probes only to the log.  It returns [True] only when the
    button was found displayed and enabled by the wait and enabled again by
    the check that follows. *)
Theorem is_search_button_enabled_never_raises (explicit_wait : Z)
    (st : State Env) :
  let self := BasePage_init explicit_wait in
  (BrowserLaws B -> exists fuel, is_Some (is_search_button_enabled B fuel self st))
  /\ forall fuel r st',
      is_search_button_enabled B fuel self st = Some (r, st') ->
      exists b probes,
        r = Ok b
        /\ log st' = log st ++ probes
        /\ Forall (fun ev => is_probe ev = true) probes
        /\ (b = true ->
            exists el pre,
              probes = pre ++ [UFind SEARCH_BUTTON (Ok el);
                               UIsDisplayed el (Ok true); UIsEnabled el (Ok true);
                               UIsEnabled el (Ok true)]).
Proof.
  intros self. subst self. split.
  - intros Hlaws.
    destruct (until_terminates B explicit_wait
                (element_to_be_clickable B SEARCH_BUTTON) st Hlaws
                (clickable_monotone B SEARCH_BUTTON Hlaws)) as [fuel [[r st1] Hrun]].
    exists fuel. unfold is_search_button_enabled, find_clickable. simpl.
    rewrite Hrun. destruct r as [[el|]|e]; eauto.
    destruct (element_is_enabled B el st1). eauto.
  - intros fuel r st' Hrun. unfold is_search_button_enabled, find_clickable in Hrun.
    destruct (until B fuel _ _ st) as [[r0 st1]|] eqn:Hwait; [|done].
    destruct (until_loop_log B _ _ _ _ _ (clickable_probing B SEARCH_BUTTON)
                _ _ _ Hwait) as (probes & Hlog & Hall & Hseen).
    destruct r0 as [v|e].
    + destruct (Hseen v eq_refl) as (_ & pre & last & -> & el & -> & ->).
      unfold element_is_enabled in Hrun.
      destruct (el_is_enabled B el (env st1)) as [rc e1]. inversion Hrun; subst.
      simpl. exists (match rc with Ok b => b | Raise _ => false end),
               ((pre ++ [UFind SEARCH_BUTTON (Ok el); UIsDisplayed el (Ok true);
                         UIsEnabled el (Ok true)]) ++ [UIsEnabled el rc]).
      split_and!.
      * by destruct rc.
      * by rewrite Hlog, <- !app_assoc.
      * apply Forall_app. split; [done|by repeat constructor].
      * intros Hb. destruct rc as [[|]|]; try done. exists el, pre.
        by rewrite <- !app_assoc.
    + inversion Hrun; subst. exists false, probes. by split_and!.
Qed.

End WaitMore.

(** * Properties of the main page *)

Section PageMore.
Context {Env : Type}.
Variable B : Browser Env.

(** X15. With a clock that runs forward [set_departure_date] ends.  A
    run that ends is a click on the date field, a run of "wait, then act"
    on the condition that the field is clickable, followed, in the state
    that this click has left and only when it has returned, by a click of
    the same kind on the cell of the date, whose outcome is that of the
    call; when the first click raises, so does the call, and nothing more
    is done. *)
Theorem set_departure_date_clicks_in_order (explicit_wait : Z)
    (departure_date : string) (st : State Env) :
  let self := BasePage_init explicit_wait in
  (BrowserLaws B ->
   exists fuel, is_Some (set_departure_date B fuel self departure_date st))
  /\ forall fuel r st',
      set_departure_date B fuel self departure_date st = Some (r, st') ->
      clicks_field_then_cell B (wait self)
        (By.CSS_SELECTOR, "[data-date='" +:+ departure_date +:+ "']") st r st'.
Proof.
  intros self. subst self. split.
  - intros Hlaws.
    destruct (proj1 (click_waits B explicit_wait DEPARTURE_DATE_FIELD st) Hlaws)
      as [f1 [[r1 st1] H1]].
    destruct r1 as [[]|e].
    + destruct (proj1 (click_waits B explicit_wait
                         (By.CSS_SELECTOR, DATE_CELL departure_date) st1) Hlaws)
        as [f2 [x H2]].
      exists (f1 `max` f2). unfold set_departure_date, and_then.
      rewrite (click_fuel_le B _ _ _ f1 (f1 `max` f2) _ ltac:(lia) H1).
      rewrite (click_fuel_le B _ _ _ f2 (f1 `max` f2) _ ltac:(lia) H2). eauto.
    + exists f1. unfold set_departure_date, and_then. rewrite H1. eauto.
  - intros fuel r st' Hrun. unfold set_departure_date, and_then in Hrun.
    destruct (click B fuel _ DEPARTURE_DATE_FIELD st) as [[r1 st1]|] eqn:H1; [|done].
    exists r1, st1. split_and!.
    + exact (click_steps B _ _ _ _ _ _ H1).
    + exact (proj2 (click_waits B explicit_wait DEPARTURE_DATE_FIELD st) _ _ _ H1).
    + destruct r1 as [[]|e].
      * split.
        -- exact (click_steps B _ _ _ _ _ _ Hrun).
        -- exact (proj2 (click_waits B explicit_wait _ st1) _ _ _ Hrun).
      * by inversion Hrun.
Qed.

Lemma type_and_pick (explicit_wait : Z) (loc : Locator) (city : string)
    (st : State Env) :
  let self := BasePage_init explicit_wait in
  let run fuel :=
    and_then (send_keys B fuel self loc city st) (fun _ st1 =>
    and_then (until B fuel (wait self)
                (presence_of_element_located B SUGGESTION_ITEM) st1) (fun _ st2 =>
    click B fuel self first_option st2)) in
  (BrowserLaws B -> exists fuel, is_Some (run fuel))
  /\ forall fuel r st',
      run fuel = Some (r, st') ->
      types_then_picks B (wait self) loc city st r st'.
Proof.
  intros self run. subst self run. split.
  - intros Hlaws.
    destruct (proj1 (send_keys_waits B explicit_wait loc city st) Hlaws)
      as [f1 [[r1 st1] H1]].
    destruct r1 as [[]|e].
    2: { exists f1. unfold and_then. rewrite H1. eauto. }
    destruct (until_terminates B explicit_wait
                (presence_of_element_located B SUGGESTION_ITEM) st1 Hlaws
                (presence_monotone B SUGGESTION_ITEM Hlaws)) as [f2 [[r2 st2] H2]].
    destruct r2 as [el|e].
    2: { exists (f1 `max` f2). unfold and_then.
         rewrite (send_keys_fuel_le B _ _ _ _ f1 (f1 `max` f2) _ ltac:(lia) H1).
         unfold until in *. cbn [wait BasePage_init].
         rewrite (until_loop_fuel_le B (V := WebElement) _ _ _ f2 (f1 `max` f2) _ _ ltac:(lia) H2).
         eauto. }
    destruct (proj1 (click_waits B explicit_wait first_option st2) Hlaws)
      as [f3 [x H3]].
    set (f := (f1 `max` (f2 `max` f3))%nat).
    assert (f1 <= f /\ f2 <= f /\ f3 <= f)%nat as (Hf1 & Hf2 & Hf3) by (subst f; lia).
    exists f. unfold and_then.
    rewrite (send_keys_fuel_le B _ _ _ _ f1 f _ Hf1 H1).
    unfold until in *. cbn [wait BasePage_init].
    rewrite (until_loop_fuel_le B (V := WebElement) _ _ _ f2 f _ _ Hf2 H2).
    rewrite (click_fuel_le B _ _ _ f3 f _ Hf3 H3). eauto.
  - intros fuel r st' Hrun. unfold and_then in Hrun.
    destruct (send_keys B fuel _ loc city st) as [[r1 st1]|] eqn:H1; [|done].
    exists r1, st1. split_and!.
    + exact (send_keys_steps B _ _ _ _ _ _ _ H1).
    + exact (proj2 (send_keys_waits B explicit_wait loc city st) _ _ _ H1).
    + destruct r1 as [[]|e]; [|by inversion Hrun].
      destruct (until B fuel _ _ st1) as [[r2 st2]|] eqn:H2; [|done].
      destruct (until_loop_log B _ _ _ _ _ (presence_probing B SUGGESTION_ITEM)
                  _ _ _ H2) as (probes & Hlog & Hall & Hseen).
      exists r2, st2. split_and!.
      * apply (until_waits_then_acts B _ _ _ _ _ _ _ _ _ H2).
        by destruct r2.
      * by exists probes.
      * destruct r2 as [el|e]; [|by inversion Hrun]. split.
        -- exact (click_steps B _ _ _ _ _ _ Hrun).
        -- exact (proj2 (click_waits B explicit_wait first_option st2) _ _ _ Hrun).
Qed.

(** X16. With a clock that runs forward [set_origin] and
    [set_destination] end.  A run that ends is the typing of the city into
    the field, a run of "wait, then act" on the presence of the field;
    then, in the state that the typing has left and only when it has
    returned, a wait for a suggestion, which adds probes only; then, in the
    state that this wait has left and only when it has found a suggestion,
    a click on the first option, a run of "wait, then act" on the condition
    that the option is clickable, whose outcome is that of the call.  The
    first step that raises ends the call with its exception. *)
Theorem set_city_picks_after_typing (explicit_wait : Z) (city : string)
    (st : State Env) :
  let self := BasePage_init explicit_wait in
  ((BrowserLaws B -> exists fuel, is_Some (set_origin B fuel self city st))
   /\ forall fuel r st',
       set_origin B fuel self city st = Some (r, st') ->
       types_then_picks B (wait self) ORIGIN_INPUT city st r st')
  /\ ((BrowserLaws B -> exists fuel, is_Some (set_destination B fuel self city st))
      /\ forall fuel r st',
          set_destination B fuel self city st = Some (r, st') ->
          types_then_picks B (wait self) DESTINATION_INPUT city st r st').
Proof.
  intros self. subst self. split.
  - apply (type_and_pick explicit_wait ORIGIN_INPUT city st).
  - apply (type_and_pick explicit_wait DESTINATION_INPUT city st).
Qed.

End PageMore.


Section AttributesMore.
Context {Env : Type}.
Variable B : Browser Env.
Variable el_get_attribute : WebElement -> string -> Env -> Res (option string) * Env.

(** X17. With attributes that are read without error,
    [is_date_disabled] returns a boolean only when the cell of the date was
    found and has a [class]: the boolean says that [aria-disabled] is
    [true] or that the class contains [disabled].  When no element has a
    [class], the call raises, whatever [aria-disabled] is. *)
Theorem is_date_disabled_reads_attributes
    (attr : WebElement -> string -> option string)
    (self : BasePage) (date_str : string) (st : State Env) :
  (forall el name e, exists e',
      el_get_attribute el name e = (Ok (attr el name), e')) ->
  forall fuel r st',
  is_date_disabled B el_get_attribute fuel self date_str st = Some (r, st') ->
  (forall b, r = Ok b ->
     exists el pre cls,
       log st' = pre ++ [UFind (By.CSS_SELECTOR, DATE_CELL date_str) (Ok el)]
       /\ attr el "class" = Some cls
       /\ b = bool_decide (attr el "aria-disabled" = Some "true")
              || contains "disabled" cls)
  /\ ((forall el, attr el "class" = None) -> exists e, r = Raise e).
Proof.
  intros Hattr fuel r st' Hrun. unfold is_date_disabled, and_then in Hrun.
  destruct (click B fuel self DEPARTURE_DATE_FIELD st) as [[[[]|e1] st1]|];
    [|by inversion Hrun; subst; split; [|eauto]|done].
  destruct (find_element B fuel self _ st1) as [[[el|e2] st2]|] eqn:Hfind;
    [|by inversion Hrun; subst; split; [|eauto]|done].
  destruct (until_loop_log B _ _ _ _ _ (presence_probing B _) _ _ _ Hfind)
    as (probes & Hlog & _ & Hseen).
  destruct (Hseen el eq_refl) as (_ & pre & last & -> & ->).
  unfold date_cell_disabled, ui_bind, ui_ret, element_get_attribute in Hrun.
  destruct (Hattr el "aria-disabled" (env st2)) as [e3 H3]. rewrite H3 in Hrun.
  cbn [env log] in Hrun.
  destruct (Hattr el "class" e3) as [e4 H4]. rewrite H4 in Hrun.
  cbn [env log] in Hrun.
  destruct (attr el "class") as [cls|] eqn:Hcls.
  - inversion Hrun; subst. split.
    + intros b Hb. inversion Hb; subst. exists el, (log st1 ++ pre), cls.
      split_and!; [by rewrite Hlog, <- app_assoc|done|].
      f_equal. destruct (attr el "aria-disabled") as [v|]; [|done].
      destruct (String.eqb_spec v "true") as [Heq|Hne].
      * rewrite bool_decide_eq_true_2; [done|]. congruence.
      * rewrite bool_decide_eq_false_2; [done|]. congruence.
    + intros Hnone. specialize (Hnone el). congruence.
  - inversion Hrun; subst. split; [done|eauto].
Qed.

End AttributesMore.

(** *** The further properties on the test doubles *)

(** The cut of the attached body counts characters, not bytes: three
    Cyrillic letters are six bytes. *)
Example attachment_cut_counts_characters :
  py_prefix 3 "Сочи, Россия" = "Соч"
  /\ py_len "Соч" = 3%nat
  /\ String.length "Соч" = 6%nat.
Proof. split_and!; vm_compute; reflexivity. Qed.

(** An answered request attaches the request and the answer, here with
    its whole body. *)
Example request_attachments_of_an_answer :
  attachments (_request scripted
                 (scripted_client [Raise (RequestException "timed out");
                                   Ok response_404])
                 "GET" "/search" None None None 30 3).2
  = [AttachRequest "Запрос" "GET" "https://api.test/search" None None None;
     AttachResponse "Ответ" 404 (text response_404)].
Proof. vm_compute. reflexivity. Qed.

(** Two time-outs and then an answer, with a budget of five. *)
Lemma request_attempts_bounded_witness :
  let run := _request scripted
               (scripted_client [Raise (RequestException "timed out");
                                 Raise (RequestException "timed out");
                                 Ok response_a1])
               "GET" "/search" None None None 30 5 in
  (length (attempts run.2) <= 5)%nat
  /\ exists e, (attempts run.2 !! 0%nat) = Some (call_of
                 (scripted_client [Raise (RequestException "timed out");
                                   Raise (RequestException "timed out");
                                   Ok response_a1])
                 "GET" "https://api.test/search" None None None 30, Raise e).
Proof.
  pose proof (request_attempts_bounded scripted
                (scripted_client [Raise (RequestException "timed out");
                                  Raise (RequestException "timed out");
                                  Ok response_a1])
                "GET" "/search" None None None 30 5) as H.
  intros run. subst run.
  destruct (_request _ _ _ _ _ _ _ _ _) as [[r self'] evs] eqn:Hrun.
  destruct H as [Hlen Hpre]. split; [exact Hlen|].
  vm_compute in Hrun. injection Hrun as <- <- <-.
  exists (RequestException "timed out"). reflexivity.
Defined.

(** A transport that is down, with a budget of three. *)
Lemma request_raises_after_all_attempts_witness :
  let run := _request always_down (BaseApiClient_init ∅ "https://api.test" None tt)
               "GET" "/search" None None None 30 3 in
  length (attempts run.2) = 3%nat
  /\ Forall (fun a => exists e, a.2 = Raise e) (attempts run.2).
Proof.
  pose proof (request_raises_after_all_attempts always_down
                (BaseApiClient_init ∅ "https://api.test" None tt)
                "GET" "/search" None None None 30 3) as H.
  intros run. subst run.
  destruct (_request _ _ _ _ _ _ _ _ _) as [[r self'] evs] eqn:Hrun.
  assert (exists x, r = Raise x) as [x Hx].
  { vm_compute in Hrun. injection Hrun as <- _ _. eauto. }
  destruct (H x Hx) as (Hlen & Hall & _). split; [exact Hlen|exact Hall].
Defined.

(** A flight search that is answered with a 400. *)
Lemma endpoints_return_decoded_200_only_witness :
  let run := search_flights scripted
               (FlightSearchApiClient_init ∅ [Ok response_400])
               "MOW" "AER" "2026-10-27" None 0 1 0 0 in
  exists msg, run.1.1 = Raise (AssertionError msg)
              /\ contains "400" msg = true.
Proof.
  pose proof (endpoints_return_decoded_200_only scripted
                (FlightSearchApiClient_init ∅ [Ok response_400])
                "MOW" "AER" "2026-10-27" None 0 1 0 0 "" "" []) as [H _].
  intros run. subst run.
  destruct (search_flights _ _ _ _ _ _ _ _ _ _) as [[r self'] evs] eqn:Hrun.
  destruct H as (_ & H & _).
  assert (exists call, attempts evs !! 0%nat = Some (call, Ok response_400))
    as [call Hcall].
  { vm_compute in Hrun. injection Hrun as _ _ <-. eexists. reflexivity. }
  destruct (H 0%nat call response_400 Hcall ltac:(done)) as (_ & msg & Hr & Hc & _).
  exists msg. split; [exact Hr|exact Hc].
Defined.

(** The payload of a one-way search. *)
Lemma drop_none_keeps_lookups_witness :
  let payload := [("origin", PStr "MOW"); ("return_date", PNone);
                  ("adults", PInt 1)] in
  NoDup payload.*1
  /\ assoc_get "return_date" (drop_none payload) = PNone
  /\ assoc_get "adults" (drop_none payload) = PInt 1.
Proof.
  intros payload.
  assert (NoDup payload.*1) as Hnd.
  { subst payload. apply (bool_decide_unpack _). vm_compute. reflexivity. }
  split; [exact Hnd|].
  destruct (drop_none_keeps_lookups payload) as [_ H].
  split; rewrite (H Hnd); reflexivity.
Defined.

(** The answer of the example holds one airport with a code. *)
Lemma extract_iata_codes_in_order_witness :
  Forall (fun item => is_object item = true) sochi_items
  /\ extract_iata_codes (PList sochi_items) = Ok [PStr "AER"].
Proof.
  assert (Forall (fun item => is_object item = true) sochi_items) as Hobj.
  { repeat constructor. }
  split; [exact Hobj|].
  destruct (extract_iata_codes_in_order sochi_items) as [H _].
  rewrite (H Hobj). reflexivity.
Defined.

(** The items of the example are well formed, and a list comes back. *)
Lemma extract_city_names_returns_iff_well_formed_witness :
  Forall well_formed_item sochi_items
  /\ exists cities, extract_city_names (PList sochi_items) = Ok cities.
Proof.
  split; [exact sochi_items_well_formed|].
  apply (extract_city_names_returns_iff_well_formed sochi_items).
  exact sochi_items_well_formed.
Defined.

(** A page with the button there from the start: the element returned is
    the one that the three probes have seen. *)
Lemma waits_return_observed_elements_witness :
  exists el pre,
    find_clickable page_browser 10 page_object search_button (page0 0 0 false)
    = Some (Ok (Some el),
            mkState (mkPage 30 0 0 false)
              (pre ++ [UFind search_button (Ok el); UIsDisplayed el (Ok true);
                       UIsEnabled el (Ok true)])).
Proof.
  destruct (waits_return_observed_elements page_browser page_object search_button
              (page0 0 0 false)) as [_ H].
  assert (find_clickable page_browser 10 page_object search_button (page0 0 0 false)
          = Some (Ok (Some 7%Z),
                  mkState (mkPage 30 0 0 false)
                    [UFind search_button (Ok 7%Z); UIsDisplayed 7%Z (Ok true);
                     UIsEnabled 7%Z (Ok true)])) as Hrun.
  { vm_compute. reflexivity. }
  destruct (H _ _ _ Hrun) as (probes & Hlog & _ & Hseen).
  destruct (Hseen _ eq_refl) as (el & pre & Hel & Hpre).
  exists el, pre. rewrite Hrun. injection Hel as <-.
  simpl in Hlog. rewrite <- Hpre, <- Hlog. reflexivity.
Defined.

(** A negative timeout: one evaluation, which takes 10 ms. *)
Lemma wait_for_result_past_deadline_witness :
  (clock page_browser (page0 2000 0 false) + 1000 * (-3)
   < clock page_browser (page_condition (page0 2000 0 false)).2)%Z
  /\ wait_for_result page_browser 1 page_object page_condition (-3)
       (page0 2000 0 false)
     = Some (Raise (TimeoutException ""), mkState (mkPage 10 2000 0 false) []).
Proof.
  assert (clock page_browser (page0 2000 0 false) + 1000 * (-3)
          < clock page_browser (page_condition (page0 2000 0 false)).2)%Z as Hlate.
  { vm_compute. reflexivity. }
  split; [exact Hlate|].
  rewrite (wait_for_result_past_deadline page_browser page_object page_condition
             (-3) (page0 2000 0 false) 0 Hlate).
  reflexivity.
Defined.

(** Five seconds for a condition that is true after two: at most twelve
    evaluations. *)
Lemma wait_for_result_polls_bounded_witness :
  BrowserLaws page_browser
  /\ monotone_condition page_browser page_condition
  /\ exists k, (Z.of_nat k <= 2 * 5 + 1)%Z
               /\ mkState (mkPage 2050 2000 0 false) []
                  = (poll page_browser POLL_FREQUENCY page_condition k
                       (page0 2000 0 false)).2.
Proof.
  split; [exact page_browser_laws|]. split; [exact page_condition_monotone|].
  destruct (wait_for_result_polls_bounded page_browser page_object page_condition
              5 (page0 2000 0 false) page_browser_laws page_condition_monotone
              ltac:(lia) 20%nat _ _ wait_for_result_after_two_seconds)
    as (k & Hk & _ & Hst & _).
  exists k. split; [exact Hk|exact Hst].
Defined.

(** The search button of the test page, and a driver that is broken. *)
Lemma is_search_button_enabled_never_raises_witness :
  BrowserLaws page_browser
  /\ (exists fuel,
        is_Some (is_search_button_enabled page_browser fuel (BasePage_init 10)
                   (page0 0 0 true)))
  /\ exists b,
       fst <$> is_search_button_enabled page_browser 10 (BasePage_init 10)
                 (page0 0 0 true)
       = Some (Ok b).
Proof.
  destruct (is_search_button_enabled_never_raises page_browser 10 (page0 0 0 true))
    as [Hends Hres].
  split; [exact page_browser_laws|]. split; [exact (Hends page_browser_laws)|].
  destruct (is_search_button_enabled page_browser 10 (BasePage_init 10)
              (page0 0 0 true)) as [[r st']|] eqn:Hrun.
  - destruct (Hres _ _ _ Hrun) as (b & _ & -> & _). exists b. reflexivity.
  - vm_compute in Hrun. discriminate Hrun.
Defined.

(** On the test page the date field appears after 600 ms and is enabled
    after 1200 ms: it is clicked once it is seen enabled, and the cell of
    the date after that. *)
Example set_departure_date_on_the_page :
  set_departure_date page_browser 10 (BasePage_init 10) "2026-11-04"
    (page0 600 1200 false)
  = Some (Ok tt,
          mkState (mkPage 1630 600 1200 false)
            [UFind DEPARTURE_DATE_FIELD
               (Raise (NoSuchElementException "no such element"));
             UFind DEPARTURE_DATE_FIELD
               (Raise (NoSuchElementException "no such element"));
             UFind DEPARTURE_DATE_FIELD (Ok 7%Z);
             UIsDisplayed 7%Z (Ok true); UIsEnabled 7%Z (Ok false);
             UFind DEPARTURE_DATE_FIELD (Ok 7%Z);
             UIsDisplayed 7%Z (Ok true); UIsEnabled 7%Z (Ok true);
             UClick 7%Z (Ok tt);
             UFind (By.CSS_SELECTOR, "[data-date='2026-11-04']") (Ok 7%Z);
             UIsDisplayed 7%Z (Ok true); UIsEnabled 7%Z (Ok true);
             UClick 7%Z (Ok tt)]).
Proof. vm_compute. reflexivity. Qed.

(** The theorem on the test page: the call ends, and the run of the
    example is a click on the field followed, from the state it left, by a
    click on the cell. *)
Lemma set_departure_date_clicks_in_order_witness :
  BrowserLaws page_browser
  /\ (exists fuel,
        is_Some (set_departure_date page_browser fuel (BasePage_init 10)
                   "2026-11-04" (page0 600 1200 false)))
  /\ exists st1 st',
       set_departure_date page_browser 10 (BasePage_init 10) "2026-11-04"
         (page0 600 1200 false) = Some (Ok tt, st')
       /\ clicks page_browser (wait (BasePage_init 10)) DEPARTURE_DATE_FIELD
            (page0 600 1200 false) (Ok tt) st1
       /\ clicks page_browser (wait (BasePage_init 10))
            (By.CSS_SELECTOR, "[data-date='2026-11-04']") st1 (Ok tt) st'.
Proof.
  pose proof (set_departure_date_clicks_in_order page_browser 10 "2026-11-04"
                (page0 600 1200 false)) as [Hends Hspec].
  split; [exact page_browser_laws|]. split; [exact (Hends page_browser_laws)|].
  destruct (Hspec 10%nat _ _ set_departure_date_on_the_page)
    as (r1 & st1 & Hfirst & _ & Hrest).
  destruct r1 as [[]|e]; [|destruct Hrest as [He _]; discriminate He].
  destruct Hrest as [Hsecond _].
  eexists st1, _. split; [exact set_departure_date_on_the_page|].
  split; [exact Hfirst|exact Hsecond].
Defined.

Example set_origin_on_the_page :
  set_origin page_browser 10 (BasePage_init 10) "Sochi" (page0 600 1200 false)
  = Some (Ok tt,
          mkState (mkPage 1630 600 1200 false)
            [UFind ORIGIN_INPUT (Raise (NoSuchElementException "no such element"));
             UFind ORIGIN_INPUT (Raise (NoSuchElementException "no such element"));
             UFind ORIGIN_INPUT (Ok 7%Z);
             UClear 7%Z (Ok tt); USendKeys 7%Z "Sochi" (Ok tt);
             UFind SUGGESTION_ITEM (Ok 7%Z);
             UFind first_option (Ok 7%Z);
             UIsDisplayed 7%Z (Ok true); UIsEnabled 7%Z (Ok false);
             UFind first_option (Ok 7%Z);
             UIsDisplayed 7%Z (Ok true); UIsEnabled 7%Z (Ok true);
             UClick 7%Z (Ok tt)]).
Proof. vm_compute. reflexivity. Qed.

(** The theorem on the test page: both calls end, and the run of the
    example is the typing, then from the state it left the wait for a
    suggestion, then from the state that wait left the click on the first
    option. *)
Lemma set_city_picks_after_typing_witness :
  BrowserLaws page_browser
  /\ (exists fuel,
        is_Some (set_origin page_browser fuel (BasePage_init 10) "Москва"
                   (page0 600 1200 false)))
  /\ (exists fuel,
        is_Some (set_destination page_browser fuel (BasePage_init 10)
                   "Санкт-Петербург" (page0 600 1200 false)))
  /\ exists st1 st2 st',
       set_origin page_browser 10 (BasePage_init 10) "Sochi" (page0 600 1200 false)
       = Some (Ok tt, st')
       /\ types page_browser (wait (BasePage_init 10)) ORIGIN_INPUT "Sochi"
            (page0 600 1200 false) (Ok tt) st1
       /\ (exists el,
             awaits page_browser (wait (BasePage_init 10)) SUGGESTION_ITEM
               st1 (Ok el) st2)
       /\ clicks page_browser (wait (BasePage_init 10)) first_option
            st2 (Ok tt) st'.
Proof.
  split; [exact page_browser_laws|]. split_and!.
  - apply (set_city_picks_after_typing page_browser 10 "Москва"
             (page0 600 1200 false)). exact page_browser_laws.
  - apply (set_city_picks_after_typing page_browser 10 "Санкт-Петербург"
             (page0 600 1200 false)). exact page_browser_laws.
  - pose proof (set_city_picks_after_typing page_browser 10 "Sochi"
                  (page0 600 1200 false)) as [[_ Hspec] _].
    destruct (Hspec 10%nat _ _ set_origin_on_the_page)
      as (r1 & st1 & Htyped & _ & Hrest).
    destruct r1 as [[]|e]; [|destruct Hrest as [He _]; discriminate He].
    destruct Hrest as (r2 & st2 & Hwaited & _ & Hrest).
    destruct r2 as [el|e]; [|destruct Hrest as [He _]; discriminate He].
    destruct Hrest as [Hclicked _].
    eexists st1, st2, _. split; [exact set_origin_on_the_page|].
    split; [exact Htyped|]. split; [by exists el|exact Hclicked].
Defined.

(** A cell with [aria-disabled] set and no [class]: the call raises. *)
Lemma is_date_disabled_reads_attributes_witness :
  (forall el name e, exists e',
      page_attribute (Some "true") None el name e
      = (Ok (cell_attributes (Some "true") None el name), e'))
  /\ exists e,
       fst <$> is_date_disabled page_browser (page_attribute (Some "true") None)
                 10 page_object "2026-11-02" (page0 0 0 false)
       = Some (Raise e).
Proof.
  assert (forall el name e, exists e',
             page_attribute (Some "true") None el name e
             = (Ok (cell_attributes (Some "true") None el name), e')) as Hattr.
  { intros el name e. eexists. reflexivity. }
  split; [exact Hattr|].
  destruct (is_date_disabled page_browser (page_attribute (Some "true") None)
              10 page_object "2026-11-02" (page0 0 0 false)) as [[r st']|] eqn:Hrun.
  - destruct (is_date_disabled_reads_attributes page_browser
                (page_attribute (Some "true") None)
                (cell_attributes (Some "true") None) page_object "2026-11-02"
                (page0 0 0 false) Hattr _ _ _ Hrun) as [_ Hraise].
    destruct Hraise as [e ->].
    + intros el. reflexivity.
    + exists e. reflexivity.
  - vm_compute in Hrun. discriminate Hrun.
Defined.

(** A cell whose class says [disabled]. *)
Example is_date_disabled_by_class :
  fst <$> is_date_disabled page_browser (page_attribute None (Some "day disabled"))
            10 page_object "2026-11-02" (page0 0 0 false)
  = Some (Ok true).
Proof. vm_compute. reflexivity. Qed.
